(** * Water-level sensor node (Wemos D1 mini, SR04M): a shallow embedding

    The development follows [src/main.cpp] of the firmware: the EEPROM
    record of the configuration, the fill-percentage model, the ESP-NOW
    send and retry logic, the long-press detector and the [/save] and
    [/read] handlers.

    Conventions.
    - [uint8_t] and [uint32_t] values are integers of [Z] with the
      wrap-around written out ([u8], [u32]); [long] and [unsigned long]
      are 32 bits wide, as on the ESP8266.
    - [float] is IEEE-754 binary32 and [double] binary64, both carried by
      [spec_float] and computed with the operations of [SpecFloat] at
      precision 24/128 and 53/1024. A [double] literal in a [float]
      expression promotes the operation to [double], as in C++.
    - The EEPROM is a 64-byte buffer (a list) over a flash sector; an
      access out of range is ignored, as in the ESP8266 core.
    - The environment of one handler call or loop iteration (clock,
      echo time, return codes, button line) is a record [Env]. *)

From Stdlib Require Import ZArith List String Ascii Bool Lia SpecFloat.
From stdpp Require Import list.

Open Scope Z_scope.

(** ** Machine integers *)

Definition u8 (z : Z) : Z := z mod 256.
Definition u32 (z : Z) : Z := z mod 2 ^ 32.

Definition LONG_MIN : Z := - 2 ^ 31.
Definition LONG_MAX : Z := 2 ^ 31 - 1.
Definition ULONG_MAX : Z := 2 ^ 32 - 1.

(** ** Constants of the sketch *)

Definition BTN_HOLD_MS : Z := 4000.
Definition EEPROM_SIZE : Z := 64.
Definition ESP_NOW_RETRY_MS : Z := 1000.

(** ** Floating point *)

Module F32.
Definition prec : Z := 24.
Definition emax : Z := 128.
Definition of_Z (z : Z) : spec_float := binary_normalize prec emax z 0 false.
Definition sub : spec_float -> spec_float -> spec_float := SFsub prec emax.
Definition div : spec_float -> spec_float -> spec_float := SFdiv prec emax.
Definition valid : spec_float -> bool := valid_binary prec emax.
End F32.

Module F64.
Definition prec : Z := 53.
Definition emax : Z := 1024.
Definition of_Z (z : Z) : spec_float := binary_normalize prec emax z 0 false.
Definition sub : spec_float -> spec_float -> spec_float := SFsub prec emax.
Definition mul : spec_float -> spec_float -> spec_float := SFmul prec emax.
Definition div : spec_float -> spec_float -> spec_float := SFdiv prec emax.
Definition ltb : spec_float -> spec_float -> bool := SFltb.
Definition leb : spec_float -> spec_float -> bool := SFleb.
End F64.

(** [(double)x] for a [float] x: exact. *)
Definition to_double (x : spec_float) : spec_float :=
  match x with
  | S754_finite s m e => binary_round F64.prec F64.emax s m e
  | _ => x
  end.

(** [(float)x] for a [double] x: rounded to nearest, ties to even. *)
Definition to_float (x : spec_float) : spec_float :=
  match x with
  | S754_finite s m e => binary_round F32.prec F32.emax s m e
  | _ => x
  end.

(** The literals [0.0], [20.0], [100.0] and [0.034] (type [double]). *)
Definition d0 : spec_float := S754_zero false.
Definition d20 : spec_float := F64.of_Z 20.
Definition d100 : spec_float := F64.of_Z 100.
Definition d0_034 : spec_float := F64.div (F64.of_Z 34) (F64.of_Z 1000).

Definition is_nan (x : spec_float) : bool :=
  match x with S754_nan => true | _ => false end.

Definition is_finite (x : spec_float) : bool :=
  match x with S754_zero _ | S754_finite _ _ _ => true | _ => false end.

(** A finite [float] greater than zero. *)
Definition is_pos_finite (x : spec_float) : bool :=
  match x with S754_finite false _ _ => true | _ => false end.

(** The object representation of a [float]: what the [union] of
    [saveConfig] and [loadConfig] reads as [uint32_t]. *)
Definition sign_bit (s : bool) : Z := if s then 2 ^ 31 else 0.

Definition bits_of_float (x : spec_float) : Z :=
  match x with
  | S754_zero s => sign_bit s
  | S754_infinity s => sign_bit s + 255 * 2 ^ 23
  | S754_nan => 255 * 2 ^ 23 + 2 ^ 22
  | S754_finite s m e =>
      sign_bit s +
      (if 2 ^ 23 <=? Zpos m then (e + 150) * 2 ^ 23 + (Zpos m - 2 ^ 23)
       else Zpos m)
  end.

Definition float_of_bits (b : Z) : spec_float :=
  let s := Z.testbit b 31 in
  let ex := (b / 2 ^ 23) mod 256 in
  let mant := b mod 2 ^ 23 in
  if ex =? 0 then
    if mant =? 0 then S754_zero s else S754_finite s (Z.to_pos mant) (-149)
  else if ex =? 255 then
    if mant =? 0 then S754_infinity s else S754_nan
  else S754_finite s (Z.to_pos (mant + 2 ^ 23)) (ex - 150).

(** ** Time conversion *)

(** [msToMinSec]: the two [uint8_t&] results as a pair. *)
Definition msToMinSec (ms : Z) : Z * Z :=
  (u8 (ms / 60000), u8 ((ms mod 60000) / 1000)).

Definition minSecToMs (minutes seconds : Z) : Z :=
  u32 ((minutes * 60 + seconds) * 1000).

(** ** Distance and fill percentage *)

(** [measureDistanceCM], as a function of what [pulseIn] returned
    (microseconds, 0 on timeout). *)
Definition measureDistanceCM (duration : Z) : spec_float :=
  if duration =? 0 then F32.of_Z (-1)
  else to_float (F64.div (F64.mul (F64.of_Z duration) d0_034) (F64.of_Z 2)).

Definition calculateWaterLevel (distance barrelHeight : spec_float) : spec_float :=
  if F64.ltb (to_double distance) d20 then to_float d0
  else
    let adjustedDistance := to_float (F64.sub (to_double distance) d20) in
    let waterLevel :=
      to_float
        (F64.mul
           (to_double (F32.div (F32.sub barrelHeight adjustedDistance) barrelHeight))
           d100) in
    let waterLevel :=
      if F64.ltb (to_double waterLevel) d0 then to_float d0 else waterLevel in
    let waterLevel :=
      if F64.ltb d100 (to_double waterLevel) then to_float d100 else waterLevel in
    waterLevel.

(** The fill model in the words of the specification: the raw percentage
    and its clamp to [0, 100]. *)
Definition fill_raw (d h : spec_float) : spec_float :=
  let adjusted := to_float (F64.sub (to_double d) d20) in
  to_float (F64.mul (to_double (F32.div (F32.sub h adjusted) h)) d100).

Definition fill_clamp (raw : spec_float) : spec_float :=
  if F64.ltb (to_double raw) d0 then to_float d0
  else if F64.ltb d100 (to_double raw) then to_float d100
  else raw.

(** ** EEPROM

    [EEPROM.begin(64)] copies the flash sector into a RAM buffer;
    [write] changes the buffer and marks it dirty when the byte differs;
    [commit] writes a dirty buffer back; [end] commits and drops the
    buffer. Whether the flash accepts a write is decided by the
    environment ([flash_ok]); a rejected write leaves the sector as it
    was. *)

Record EEPROMClass := mkEEPROM {
  _data : list Z;
  _dirty : bool
}.

Definition in_range (address : Z) : bool :=
  (0 <=? address) && (address <? EEPROM_SIZE).

Definition EEPROM_begin (flash : list Z) : EEPROMClass :=
  mkEEPROM flash false.

Definition EEPROM_read (address : Z) (e : EEPROMClass) : Z :=
  if in_range address then default 0 (_data e !! Z.to_nat address) else 0.

Definition EEPROM_write (address value : Z) (e : EEPROMClass) : EEPROMClass :=
  if in_range address then
    match _data e !! Z.to_nat address with
    | Some old =>
        if old =? u8 value then e
        else mkEEPROM (<[Z.to_nat address := u8 value]> (_data e)) true
    | None => e
    end
  else e.

(** [commit]: its result, the buffer and the flash afterwards. *)
Definition EEPROM_commit (flash_ok : bool) (e : EEPROMClass) (flash : list Z)
  : bool * EEPROMClass * list Z :=
  if negb (_dirty e) then (true, e, flash)
  else if flash_ok then (true, mkEEPROM (_data e) false, _data e)
  else (false, e, flash).

Definition EEPROM_end (flash_ok : bool) (e : EEPROMClass) (flash : list Z) : list Z :=
  snd (EEPROM_commit flash_ok e flash).

(** A clean buffer is a copy of the flash. *)
Definition in_sync (fl : list Z) (e : EEPROMClass) : Prop :=
  _dirty e = false -> _data e = fl.

(** [for (uint8_t i = 0; i < n; ++i) body(i)] over a state. *)
Definition for_upto {S : Type} (n : nat) (body : Z -> S -> S) (s : S) : S :=
  fold_left (fun acc i => body (Z.of_nat i) acc) (seq 0 n) s.

(** ** Configuration record *)

Record Config := mkConfig {
  parentMac : list Z;          (* std::array<uint8_t, 6> *)
  refreshRateMs : Z;           (* uint32_t *)
  barrelHeightCm : spec_float; (* float *)
  ledEnabled : bool;
  ssidPrefix : list Z;         (* char[16] *)
  wifiPassword : list Z        (* char[32] *)
}.

Definition set_parentMac (v : list Z) (c : Config) : Config :=
  mkConfig v (refreshRateMs c) (barrelHeightCm c) (ledEnabled c) (ssidPrefix c) (wifiPassword c).
Definition set_refreshRateMs (v : Z) (c : Config) : Config :=
  mkConfig (parentMac c) v (barrelHeightCm c) (ledEnabled c) (ssidPrefix c) (wifiPassword c).
Definition set_barrelHeightCm (v : spec_float) (c : Config) : Config :=
  mkConfig (parentMac c) (refreshRateMs c) v (ledEnabled c) (ssidPrefix c) (wifiPassword c).
Definition set_ledEnabled (v : bool) (c : Config) : Config :=
  mkConfig (parentMac c) (refreshRateMs c) (barrelHeightCm c) v (ssidPrefix c) (wifiPassword c).
Definition set_ssidPrefix (v : list Z) (c : Config) : Config :=
  mkConfig (parentMac c) (refreshRateMs c) (barrelHeightCm c) (ledEnabled c) v (wifiPassword c).
Definition set_wifiPassword (v : list Z) (c : Config) : Config :=
  mkConfig (parentMac c) (refreshRateMs c) (barrelHeightCm c) (ledEnabled c) (ssidPrefix c) v.

(** Characters of a string literal as bytes, and a [char[n]] initialised
    from it (the rest of the array is zero). *)
Fixpoint bytes_of_string (s : string) : list Z :=
  match s with
  | EmptyString => []
  | String c r => Z.of_N (N_of_ascii c) :: bytes_of_string r
  end.

Definition char_array (n : nat) (s : string) : list Z :=
  take n (bytes_of_string s ++ replicate n 0).

Definition default_config : Config :=
  mkConfig [255; 255; 255; 255; 255; 255] 5000 (F32.of_Z 50) true
           (char_array 16 "WATER_SENSOR_") (char_array 32 "HardPassword1234").

(** A configured node, for examples. *)
Definition tank_config : Config :=
  mkConfig [1; 2; 3; 4; 5; 6] 60000 (F32.of_Z 120) false
           (char_array 16 "TANK_") (char_array 32 "secretpass").

(** [a[i]] of a fixed-size array. *)
Definition elt (a : list Z) (i : Z) : Z := default 0 (a !! Z.to_nat i).

Definition byte_ok (b : Z) : Prop := 0 <= b < 256.

(** A record as the C++ type allows it. *)
Record config_wf (c : Config) : Prop := mk_config_wf {
  wf_mac_len : length (parentMac c) = 6%nat;
  wf_mac_bytes : Forall byte_ok (parentMac c);
  wf_refresh : 0 <= refreshRateMs c < 2 ^ 32;
  wf_barrel : F32.valid (barrelHeightCm c) = true;
  wf_ssid_len : length (ssidPrefix c) = 16%nat;
  wf_ssid_bytes : Forall byte_ok (ssidPrefix c);
  wf_pass_len : length (wifiPassword c) = 32%nat;
  wf_pass_bytes : Forall byte_ok (wifiPassword c)
}.

(** The same as a test. *)
Definition is_byte (b : Z) : bool := (0 <=? b) && (b <? 256).

Definition config_ok (c : Config) : bool :=
  Nat.eqb (length (parentMac c)) 6 && forallb is_byte (parentMac c)
  && (0 <=? refreshRateMs c) && (refreshRateMs c <? 2 ^ 32)
  && F32.valid (barrelHeightCm c)
  && Nat.eqb (length (ssidPrefix c)) 16 && forallb is_byte (ssidPrefix c)
  && Nat.eqb (length (wifiPassword c)) 32 && forallb is_byte (wifiPassword c).

(** ** Persistent store *)

Definition saveConfig (flash_ok : bool) (cfg : Config) (flash : list Z)
  : bool * list Z :=
  let e := EEPROM_begin flash in
  let e := for_upto 6 (fun i => EEPROM_write i (elt (parentMac cfg) i)) e in
  let e := for_upto 4 (fun i =>
             EEPROM_write (6 + i)
               (Z.land (Z.shiftr (refreshRateMs cfg) (i * 8)) 255)) e in
  let barrelUnion := bits_of_float (barrelHeightCm cfg) in
  let e := for_upto 4 (fun i =>
             EEPROM_write (10 + i)
               (Z.land (Z.shiftr barrelUnion (i * 8)) 255)) e in
  let e := EEPROM_write 14 (if ledEnabled cfg then 1 else 0) e in
  let e := for_upto 16 (fun i => EEPROM_write (15 + i) (elt (ssidPrefix cfg) i)) e in
  let e := for_upto 32 (fun i => EEPROM_write (31 + i) (elt (wifiPassword cfg) i)) e in
  let e := EEPROM_write 63 170 e in
  let '(success, e, flash) := EEPROM_commit flash_ok e flash in
  (success, EEPROM_end flash_ok e flash).

Definition loadConfig (flash : list Z) (cfg : Config) : bool * Config :=
  let e := EEPROM_begin flash in
  if negb (EEPROM_read 63 e =? 170) then (false, cfg)
  else
    let cfg := for_upto 6 (fun i c =>
                 set_parentMac (<[Z.to_nat i := EEPROM_read i e]> (parentMac c)) c) cfg in
    let cfg := set_refreshRateMs 0 cfg in
    let cfg := for_upto 4 (fun i c =>
                 set_refreshRateMs
                   (Z.lor (refreshRateMs c)
                          (u32 (Z.shiftl (EEPROM_read (6 + i) e) (i * 8)))) c) cfg in
    let barrelUnion := 0 in
    let barrelUnion := for_upto 4 (fun i b =>
                 Z.lor b (u32 (Z.shiftl (EEPROM_read (10 + i) e) (i * 8)))) barrelUnion in
    let cfg := set_barrelHeightCm (float_of_bits barrelUnion) cfg in
    let cfg := set_ledEnabled (EEPROM_read 14 e =? 1) cfg in
    let cfg := for_upto 16 (fun i c =>
                 set_ssidPrefix (<[Z.to_nat i := EEPROM_read (15 + i) e]> (ssidPrefix c)) c) cfg in
    let cfg := for_upto 32 (fun i c =>
                 set_wifiPassword (<[Z.to_nat i := EEPROM_read (31 + i) e]> (wifiPassword c)) c) cfg in
    (true, cfg).

Definition clearConfig (flash_ok : bool) (flash : list Z) : list Z :=
  let e := EEPROM_begin flash in
  let e := for_upto (Z.to_nat EEPROM_SIZE) (fun i => EEPROM_write i 255) e in
  let '(_, e, flash) := EEPROM_commit flash_ok e flash in
  EEPROM_end flash_ok e flash.

(** ** Text of a request: [sscanf], [String::toInt], [strcpy] *)

Definition code (c : ascii) : Z := Z.of_N (N_of_ascii c).

Definition isspace (c : ascii) : bool :=
  (code c =? 32) || ((9 <=? code c) && (code c <=? 13)).

Definition digit_val (c : ascii) : option Z :=
  if (48 <=? code c) && (code c <=? 57) then Some (code c - 48) else None.

Definition xdigit_val (c : ascii) : option Z :=
  if (48 <=? code c) && (code c <=? 57) then Some (code c - 48)
  else if (97 <=? code c) && (code c <=? 102) then Some (code c - 87)
  else if (65 <=? code c) && (code c <=? 70) then Some (code c - 55)
  else None.

Fixpoint skip_space (s : string) : string :=
  match s with
  | String c r => if isspace c then skip_space r else s
  | EmptyString => s
  end.

(** The longest run of digits at the head of [s]: its value, whether a
    digit was seen, and the rest. *)
Fixpoint scan_digits (val : ascii -> option Z) (base : Z) (s : string)
         (acc : Z) (seen : bool) : Z * bool * string :=
  match s with
  | String c r =>
      match val c with
      | Some v => scan_digits val base r (acc * base + v) true
      | None => (acc, seen, s)
      end
  | EmptyString => (acc, seen, s)
  end.

Definition scan_sign (s : string) : bool * string :=
  match s with
  | String c r =>
      if code c =? 45 then (true, r)
      else if code c =? 43 then (false, r)
      else (false, s)
  | EmptyString => (false, s)
  end.

(** An optional [0x] or [0X] in front of a hexadecimal digit. Without a
    digit after it the [0] is the number and the [x] stays in the input:
    the BSD scanner, from which the one of the device's C library
    derives, pushes the [x] back (glibc takes it as part of the
    number). *)
Definition skip_0x (s : string) : string :=
  match s with
  | String z (String x (String h r)) =>
      if (code z =? 48) && ((code x =? 120) || (code x =? 88)) then
        match xdigit_val h with Some _ => String h r | None => s end
      else s
  | _ => s
  end.

(** What [strtoul] returns for the digits of value [v] under the sign
    [neg]: [ULONG_MAX] when the digits alone are out of the range of
    [unsigned long] (32 bits on the ESP8266), the negation modulo 2^32
    under a minus sign otherwise. *)
Definition strtoul_value (neg : bool) (v : Z) : Z :=
  if ULONG_MAX <? v then ULONG_MAX else u32 (if neg then - v else v).

(** One [%hhx] conversion: white space, sign, prefix, digits, converted
    as by [strtoul]; the value is stored as [unsigned char]. A group has
    no length limit here (no field width, and the buffer of the
    library's scanner is not modelled). *)
Definition scan_hhx (s : string) : option (Z * string) :=
  let '(neg, s) := scan_sign (skip_space s) in
  let '(v, seen, rest) := scan_digits xdigit_val 16 (skip_0x s) 0 false in
  if seen then Some (u8 (strtoul_value neg v), rest) else None.

(** [sscanf(s, "%hhx:%hhx:%hhx:%hhx:%hhx:%hhx", &out[0], ...)]: the
    conversions are stored as they succeed; the count of them is
    returned with the array. *)
Fixpoint sscanf_mac (k : nat) (i : nat) (s : string) (out : list Z) : Z * list Z :=
  match k with
  | O => (0, out)
  | S k' =>
      match scan_hhx s with
      | None => (0, out)
      | Some (v, rest) =>
          let out := <[i := v]> out in
          match k', rest with
          | O, _ => (1, out)
          | _, String c r =>
              if code c =? 58 then
                let '(n, out) := sscanf_mac k' (S i) r out in (1 + n, out)
              else (1, out)
          | _, EmptyString => (1, out)
          end
      end
  end.

Definition parseMac (s : string) (out : list Z) : bool * list Z :=
  let '(n, out) := sscanf_mac 6 0 s out in (n =? 6, out).

(** [String::toInt]: [atol], saturating at the range of [long]. *)
Definition toInt (s : string) : Z :=
  let '(neg, s) := scan_sign (skip_space s) in
  let '(v, _, _) := scan_digits digit_val 10 s 0 false in
  Z.max LONG_MIN (Z.min LONG_MAX (if neg then - v else v)).

(** The characters [c_str()] shows to [strcpy], with the terminator. *)
Fixpoint c_str (s : string) : list Z :=
  match s with
  | EmptyString => [0]
  | String c r => if code c =? 0 then [0] else code c :: c_str r
  end.

(** [strcpy(dst, src)] into a fixed array: the bytes after the
    terminator keep their values. *)
Definition strcpy (dst src : list Z) : list Z :=
  take (length dst) (src ++ drop (length src) dst).

(** ** Requests *)

Definition Args : Type := list (string * string).

Definition hasArg (req : Args) (name : string) : bool :=
  existsb (fun kv => String.eqb (fst kv) name) req.

Fixpoint arg (req : Args) (name : string) : string :=
  match req with
  | [] => EmptyString
  | (k, v) :: r => if String.eqb k name then v else arg r name
  end.

Inductive Request :=
| POST_save (args : Args)
| GET_read
| GET_reset.

(** What a handler sends back. *)
Inductive Reply :=
| Text (status : Z) (body : string)
| Json (distance waterLevel : spec_float) (barrelHeight : spec_float)
| Page.

(** ** The environment of one call

    One handler call or one iteration of [loop] reads the clock as one
    value: every [millis()] of the call returns [millis env]. The time a
    call itself takes (an echo wait is at most 30 ms) is not part of the
    model. *)

Record Env := mkEnv {
  millis : Z;               (* millis(), uint32_t *)
  pulseIn : Z;              (* echo width in microseconds, 0 on timeout *)
  esp_now_init : Z;
  esp_now_add_peer : Z;
  esp_now_send : Z;         (* return code of the carrier *)
  button_low : bool;        (* digitalRead(BTN_PIN) == LOW *)
  spi_flash_ok : bool;      (* the flash accepts a commit *)
  request : option Request  (* what server.handleClient() finds *)
}.

(** ** Globals of the sketch *)

Record Payload := mkPayload {
  distance : spec_float;
  waterLevel : spec_float;
  barrelHeight : spec_float
}.

(** Lines of the serial console that mark where a send comes from and
    the long press. *)
Inductive Line :=
| LineSkipped       (* ESP-NOW send: Skipped (not initialized) *)
| LineAuto          (* Auto-sending data via ESP-NOW (refresh rate trigger) *)
| LineManual        (* Manual-sending data via ESP-NOW (button trigger) *)
| LineRetry         (* === ESP-NOW RETRY ATTEMPT === *)
| LineLongPress.    (* Long press -> clearing config *)

Record Device := mkDevice {
  config : Config;
  currentDistance : spec_float;
  currentWaterLevel : spec_float;
  lastSensorRead : Z;
  espNowInitialized : bool;
  espNowSendSuccess : bool;
  lastEspNowSend : Z;
  lastEspNowRetry : Z;
  payload : Payload;
  t0 : Z;                         (* static of checkButton *)
  pressed : bool;                 (* static of checkButton *)
  flash : list Z;                 (* the EEPROM sector *)
  radio : list (list Z * Payload);  (* datagrams handed to esp_now_send *)
  serial : list Line;
  restarted : bool                (* ESP.restart() was called *)
}.

Definition set_config (v : Config) (d : Device) : Device :=
  mkDevice v (currentDistance d) (currentWaterLevel d) (lastSensorRead d)
    (espNowInitialized d) (espNowSendSuccess d) (lastEspNowSend d) (lastEspNowRetry d)
    (payload d) (t0 d) (pressed d) (flash d) (radio d) (serial d) (restarted d).
Definition set_currentDistance (v : spec_float) (d : Device) : Device :=
  mkDevice (config d) v (currentWaterLevel d) (lastSensorRead d)
    (espNowInitialized d) (espNowSendSuccess d) (lastEspNowSend d) (lastEspNowRetry d)
    (payload d) (t0 d) (pressed d) (flash d) (radio d) (serial d) (restarted d).
Definition set_currentWaterLevel (v : spec_float) (d : Device) : Device :=
  mkDevice (config d) (currentDistance d) v (lastSensorRead d)
    (espNowInitialized d) (espNowSendSuccess d) (lastEspNowSend d) (lastEspNowRetry d)
    (payload d) (t0 d) (pressed d) (flash d) (radio d) (serial d) (restarted d).
Definition set_lastSensorRead (v : Z) (d : Device) : Device :=
  mkDevice (config d) (currentDistance d) (currentWaterLevel d) v
    (espNowInitialized d) (espNowSendSuccess d) (lastEspNowSend d) (lastEspNowRetry d)
    (payload d) (t0 d) (pressed d) (flash d) (radio d) (serial d) (restarted d).
Definition set_espNowSendSuccess (v : bool) (d : Device) : Device :=
  mkDevice (config d) (currentDistance d) (currentWaterLevel d) (lastSensorRead d)
    (espNowInitialized d) v (lastEspNowSend d) (lastEspNowRetry d)
    (payload d) (t0 d) (pressed d) (flash d) (radio d) (serial d) (restarted d).
Definition set_lastEspNowSend (v : Z) (d : Device) : Device :=
  mkDevice (config d) (currentDistance d) (currentWaterLevel d) (lastSensorRead d)
    (espNowInitialized d) (espNowSendSuccess d) v (lastEspNowRetry d)
    (payload d) (t0 d) (pressed d) (flash d) (radio d) (serial d) (restarted d).
Definition set_lastEspNowRetry (v : Z) (d : Device) : Device :=
  mkDevice (config d) (currentDistance d) (currentWaterLevel d) (lastSensorRead d)
    (espNowInitialized d) (espNowSendSuccess d) (lastEspNowSend d) v
    (payload d) (t0 d) (pressed d) (flash d) (radio d) (serial d) (restarted d).
Definition set_payload (v : Payload) (d : Device) : Device :=
  mkDevice (config d) (currentDistance d) (currentWaterLevel d) (lastSensorRead d)
    (espNowInitialized d) (espNowSendSuccess d) (lastEspNowSend d) (lastEspNowRetry d)
    v (t0 d) (pressed d) (flash d) (radio d) (serial d) (restarted d).
Definition set_button (v : Z) (p : bool) (d : Device) : Device :=
  mkDevice (config d) (currentDistance d) (currentWaterLevel d) (lastSensorRead d)
    (espNowInitialized d) (espNowSendSuccess d) (lastEspNowSend d) (lastEspNowRetry d)
    (payload d) v p (flash d) (radio d) (serial d) (restarted d).
Definition set_flash (v : list Z) (d : Device) : Device :=
  mkDevice (config d) (currentDistance d) (currentWaterLevel d) (lastSensorRead d)
    (espNowInitialized d) (espNowSendSuccess d) (lastEspNowSend d) (lastEspNowRetry d)
    (payload d) (t0 d) (pressed d) v (radio d) (serial d) (restarted d).
Definition transmit (v : list Z * Payload) (d : Device) : Device :=
  mkDevice (config d) (currentDistance d) (currentWaterLevel d) (lastSensorRead d)
    (espNowInitialized d) (espNowSendSuccess d) (lastEspNowSend d) (lastEspNowRetry d)
    (payload d) (t0 d) (pressed d) (flash d) (radio d ++ [v]) (serial d) (restarted d).
Definition println (v : Line) (d : Device) : Device :=
  mkDevice (config d) (currentDistance d) (currentWaterLevel d) (lastSensorRead d)
    (espNowInitialized d) (espNowSendSuccess d) (lastEspNowSend d) (lastEspNowRetry d)
    (payload d) (t0 d) (pressed d) (flash d) (radio d) (serial d ++ [v]) (restarted d).
Definition ESP_restart (d : Device) : Device :=
  mkDevice (config d) (currentDistance d) (currentWaterLevel d) (lastSensorRead d)
    (espNowInitialized d) (espNowSendSuccess d) (lastEspNowSend d) (lastEspNowRetry d)
    (payload d) (t0 d) (pressed d) (flash d) (radio d) (serial d) true.
Definition set_serial (v : list Line) (d : Device) : Device :=
  mkDevice (config d) (currentDistance d) (currentWaterLevel d) (lastSensorRead d)
    (espNowInitialized d) (espNowSendSuccess d) (lastEspNowSend d) (lastEspNowRetry d)
    (payload d) (t0 d) (pressed d) (flash d) (radio d) v (restarted d).

(** ** ESP-NOW link *)

(** The completion callback of the carrier. *)
Definition onEspNowSend (status : Z) (d : Device) : Device :=
  set_espNowSendSuccess (u8 status =? 0) d.

Definition isDefaultMac (mac : list Z) : bool :=
  forallb (fun i => elt mac (Z.of_nat i) =? 255) (seq 0 6).

Definition initEspNow (env : Env) (cfg : Config) : bool :=
  if negb (esp_now_init env =? 0) then false
  else if isDefaultMac (parentMac cfg) then false
  else if negb (esp_now_add_peer env =? 0) then false
  else true.

Definition sendEspNowData (env : Env) (d : Device) : Device :=
  if negb (espNowInitialized d) then println LineSkipped d
  else
    let d := set_payload
               (mkPayload (currentDistance d) (currentWaterLevel d)
                          (barrelHeightCm (config d))) d in
    let d := transmit (parentMac (config d), payload d) d in
    let d := if negb (u8 (esp_now_send env) =? 0)
             then set_espNowSendSuccess false d else d in
    set_lastEspNowSend (millis env) d.

(** ** Sampling *)

Definition updateSensorReadings (env : Env) (d : Device) : Device :=
  let currentTime := millis env in
  if refreshRateMs (config d) <=? u32 (currentTime - lastSensorRead d) then
    let d := set_currentDistance (measureDistanceCM (pulseIn env)) d in
    let d := set_currentWaterLevel
               (calculateWaterLevel (currentDistance d) (barrelHeightCm (config d))) d in
    let d := set_lastSensorRead currentTime d in
    if espNowInitialized d then sendEspNowData env (println LineAuto d) else d
  else d.

Definition handleReadSensor (env : Env) (d : Device) : Reply * Device :=
  let d := set_currentDistance (measureDistanceCM (pulseIn env)) d in
  let d := set_currentWaterLevel
             (calculateWaterLevel (currentDistance d) (barrelHeightCm (config d))) d in
  let d := set_lastSensorRead (millis env) d in
  let d := if espNowInitialized d
           then sendEspNowData env (println LineManual d) else d in
  (Json (currentDistance d) (currentWaterLevel d) (barrelHeightCm (config d)), d).

(** ** Saving and resetting the configuration *)

Definition handleSave (env : Env) (req : Args) (d : Device) : Reply * Device :=
  if negb (hasArg req "pmac") || negb (hasArg req "minutes")
     || negb (hasArg req "seconds") || negb (hasArg req "barrel")
  then (Text 400 "Missing parameters", d)
  else
    let macStr := arg req "pmac" in
    let '(ok, mac) := parseMac macStr (parentMac (config d)) in
    let d := set_config (set_parentMac mac (config d)) d in
    if negb ok then (Text 400 "Bad MAC format", d)
    else
      let minutes := u8 (toInt (arg req "minutes")) in
      let seconds := u8 (toInt (arg req "seconds")) in
      if (59 <? minutes) || (59 <? seconds) then (Text 400 "Invalid time format", d)
      else
        let d := set_config (set_refreshRateMs (minSecToMs minutes seconds) (config d)) d in
        let barrel := toInt (arg req "barrel") in
        if (barrel <=? 0) || (1000 <? barrel) then (Text 400 "Invalid barrel height", d)
        else
          let d := set_config (set_barrelHeightCm (F32.of_Z barrel) (config d)) d in
          let d := set_config (set_ledEnabled (hasArg req "led") (config d)) d in
          let ssidStr := arg req "ssid" in
          let d :=
            if (0 <? Z.of_nat (String.length ssidStr))
               && (Z.of_nat (String.length ssidStr) <=? 15)
            then set_config (set_ssidPrefix
                               (strcpy (ssidPrefix (config d)) (c_str ssidStr))
                               (config d)) d
            else d in
          let passwordStr := arg req "password" in
          let plen := Z.of_nat (String.length passwordStr) in
          let fits := (8 <=? plen) && (plen <=? 31) in
          if negb fits && (0 <? plen) then
            (Text 400 "WiFi password must be 8-31 characters long", d)
          else
            let d :=
              if fits
              then set_config (set_wifiPassword
                                 (strcpy (wifiPassword (config d)) (c_str passwordStr))
                                 (config d)) d
              else d in
            let '(saved, fl) := saveConfig (spi_flash_ok env) (config d) (flash d) in
            let d := set_flash fl d in
            if saved then (Text 200 "Settings saved. Rebooting...", ESP_restart d)
            else (Text 500 "Failed to save settings", d).

(** The defaults are assigned field by field; the two strings are
    copied with [strcpy], so the bytes of the arrays after the new
    terminators are the old ones. *)
Definition handleReset (env : Env) (d : Device) : Reply * Device :=
  let d := set_config (set_parentMac [255; 255; 255; 255; 255; 255] (config d)) d in
  let d := set_config (set_refreshRateMs 5000 (config d)) d in
  let d := set_config (set_barrelHeightCm (to_float (F64.of_Z 50)) (config d)) d in
  let d := set_config (set_ledEnabled true (config d)) d in
  let d := set_config (set_ssidPrefix
                         (strcpy (ssidPrefix (config d)) (c_str "WATER_SENSOR_"))
                         (config d)) d in
  let d := set_config (set_wifiPassword
                         (strcpy (wifiPassword (config d)) (c_str "HardPassword1234"))
                         (config d)) d in
  let d := set_flash (clearConfig (spi_flash_ok env) (flash d)) d in
  (Page, d).

(** The checks [handleSave] makes on a request, in its order, and the
    body of the reply for the first that fails. [mac] is the peer MAC of
    the record, into which [parseMac] scans. *)
Definition missing_parameter (req : Args) : bool :=
  negb (hasArg req "pmac") || negb (hasArg req "minutes")
  || negb (hasArg req "seconds") || negb (hasArg req "barrel").

Definition bad_mac (req : Args) (mac : list Z) : bool :=
  negb (fst (parseMac (arg req "pmac") mac)).

Definition bad_time (req : Args) : bool :=
  (59 <? u8 (toInt (arg req "minutes"))) || (59 <? u8 (toInt (arg req "seconds"))).

Definition bad_barrel (req : Args) : bool :=
  (toInt (arg req "barrel") <=? 0) || (1000 <? toInt (arg req "barrel")).

Definition bad_password (req : Args) : bool :=
  let plen := Z.of_nat (String.length (arg req "password")) in
  negb ((8 <=? plen) && (plen <=? 31)) && (0 <? plen).

Definition save_error (req : Args) (mac : list Z) : option string :=
  if missing_parameter req then Some "Missing parameters"%string
  else if bad_mac req mac then Some "Bad MAC format"%string
  else if bad_time req then Some "Invalid time format"%string
  else if bad_barrel req then Some "Invalid barrel height"%string
  else if bad_password req
       then Some "WiFi password must be 8-31 characters long"%string
  else None.

Definition handleClient (env : Env) (d : Device) : Device :=
  match request env with
  | Some (POST_save args) => snd (handleSave env args d)
  | Some GET_read => snd (handleReadSensor env d)
  | Some GET_reset => snd (handleReset env d)
  | None => d
  end.

(** ** Long press *)

Definition checkButton (env : Env) (d : Device) : Device :=
  if button_low env then
    if t0 d =? 0 then set_button (millis env) true d
    else if BTN_HOLD_MS <=? u32 (millis env - t0 d) then
      let d := println LineLongPress d in
      let d := set_flash (clearConfig (spi_flash_ok env) (flash d)) d in
      ESP_restart d
    else d
  else if pressed d && (0 <? t0 d) then set_button 0 false d
  else d.

(** ** Boot and main loop *)

Definition setup (env : Env) (fl : list Z) : Device :=
  let cfg := snd (loadConfig fl default_config) in
  let dist := measureDistanceCM (pulseIn env) in
  mkDevice cfg dist (calculateWaterLevel dist (barrelHeightCm cfg)) (millis env)
           (initEspNow env cfg) true 0 0
           (mkPayload (S754_zero false) (S754_zero false) (S754_zero false))
           0 false fl [] [] false.

(** The retry block of [loop]. The blinking of the status LED at the end
    of [loop] writes only the LED pin and its own two statics and is
    left out. *)
Definition espNowRetry (env : Env) (d : Device) : Device :=
  if espNowInitialized d && negb (espNowSendSuccess d)
     && (ESP_NOW_RETRY_MS <=? u32 (millis env - lastEspNowRetry d))
  then
    let d := println LineRetry d in
    let d := sendEspNowData env d in
    set_lastEspNowRetry (millis env) d
  else d.

Definition loop (env : Env) (d : Device) : Device :=
  let d := handleClient env d in
  if restarted d then d
  else
    let d := updateSensorReadings env d in
    let d := espNowRetry env d in
    checkButton env d.

(** What happens to a running device: an iteration of [loop] or the
    completion callback of the carrier. Nothing runs once the device has
    asked for a restart. *)
Inductive Event :=
| Tick (env : Env)
| SendDone (status : Z).

Definition step (d : Device) (ev : Event) : Device :=
  if restarted d then d
  else match ev with
       | Tick env => loop env d
       | SendDone status => onEspNowSend status d
       end.

Definition run (evs : list Event) (d : Device) : Device :=
  fold_left step evs d.

(** How often a line was printed. *)
Definition line_eqb (a b : Line) : bool :=
  match a, b with
  | LineSkipped, LineSkipped | LineAuto, LineAuto | LineManual, LineManual
  | LineRetry, LineRetry | LineLongPress, LineLongPress => true
  | _, _ => false
  end.

Fixpoint count_lines (l : Line) (s : list Line) : nat :=
  match s with
  | [] => O
  | x :: r => ((if line_eqb l x then 1 else 0) + count_lines l r)%nat
  end.

Definition count_line (l : Line) (d : Device) : nat := count_lines l (serial d).





(** The scheduled sample is due. *)
Definition sample_due (env : Env) (d : Device) : bool :=
  refreshRateMs (config d) <=? u32 (millis env - lastSensorRead d).

(** A device without its console output. *)
Definition mute (d : Device) : Device := set_serial [] d.

(** ** Example devices and requests *)

Definition blank_flash : list Z := replicate 64 255.

Definition quiet (now : Z) : Env := mkEnv now 1500 0 0 0 false true None.

(** The same with the carrier refusing the datagram, and with the button
    held down. *)
Definition refusing (now : Z) : Env := mkEnv now 1500 0 0 1 false true None.
Definition holding (now : Z) : Env := mkEnv now 1500 0 0 0 true true None.

(** A node configured with [tank_config], booted at 1300 ms. *)
Definition tank_device : Device :=
  setup (quiet 1300) (snd (saveConfig true tank_config blank_flash)).

Definition bad_barrel_request : Args :=
  [("pmac", "AA:BB:CC:DD:EE:FF"); ("minutes", "1"); ("seconds", "30");
   ("barrel", "0")]%string.

Definition zero_interval_request : Args :=
  [("pmac", "AA:BB:CC:DD:EE:FF"); ("minutes", "0"); ("seconds", "0");
   ("barrel", "80")]%string.

Definition SAVED : Reply := Text 200 "Settings saved. Rebooting...".

Definition PASSWORD_MSG : string := "WiFi password must be 8-31 characters long".

(** The ways [handleSave] ends, for a request [req] on a device [d]. *)
Inductive save_outcome (req : Args) (d : Device) : Reply * Device -> Prop :=
| save_missing :
    save_outcome req d (Text 400 "Missing parameters", d)
| save_bad_mac (mac : list Z) :
    save_outcome req d
      (Text 400 "Bad MAC format", set_config (set_parentMac mac (config d)) d)
| save_bad_time (mac : list Z) :
    save_outcome req d
      (Text 400 "Invalid time format", set_config (set_parentMac mac (config d)) d)
| save_bad_barrel (mac : list Z) (r : Z) :
    save_outcome req d
      (Text 400 "Invalid barrel height",
       set_config (set_refreshRateMs r (set_parentMac mac (config d))) d)
| save_bad_password (cfg : Config) :
    wifiPassword cfg = wifiPassword (config d) ->
    save_outcome req d (Text 400 PASSWORD_MSG, set_config cfg d)
| save_done (cfg : Config) (fl : list Z) :
    u8 (toInt (arg req "minutes")) <= 59 ->
    u8 (toInt (arg req "seconds")) <= 59 ->
    refreshRateMs cfg =
      minSecToMs (u8 (toInt (arg req "minutes"))) (u8 (toInt (arg req "seconds"))) ->
    save_outcome req d (SAVED, ESP_restart (set_flash fl (set_config cfg d)))
| save_failed (cfg : Config) (fl : list Z) :
    save_outcome req d
      (Text 500 "Failed to save settings", set_flash fl (set_config cfg d)).

(** ** Proof tools *)

(** A list of known length, element by element. *)
Ltac explode l H :=
  repeat (destruct l as [|? l]; [simpl in H; discriminate H|]);
  destruct l; [clear H|simpl in H; discriminate H].

Ltac destruct_device d :=
  destruct d as [cfg_ dist_ level_ lread_ init_ succ_ lsend_ lretry_ pay_
                 bt0_ bpr_ fl_ radio_ out_ rst_].

Ltac rejected_case :=
  repeat split; try reflexivity;
  try (intros; congruence);
  try (intros Hne; exfalso; apply Hne; reflexivity);
  try (intros Hne1 Hne2; exfalso;
       first [apply Hne1; reflexivity | apply Hne2; reflexivity]).

(** ** Printing a MAC address *)

(** One digit of [%02X]. *)
Definition hexchar (n : Z) : ascii :=
  ascii_of_N (Z.to_N (if n <? 10 then 48 + n else 55 + n)).

Definition hex2 (b : Z) (rest : string) : string :=
  String (hexchar (b / 16)) (String (hexchar (b mod 16)) rest).

(** [sprintf(buf, "%02X:%02X:%02X:%02X:%02X:%02X", mac[0], ..., mac[5])]. *)
Definition macToString (mac : list Z) : string :=
  hex2 (elt mac 0) (String ":" (hex2 (elt mac 1) (String ":"
  (hex2 (elt mac 2) (String ":" (hex2 (elt mac 3) (String ":"
  (hex2 (elt mac 4) (String ":" (hex2 (elt mac 5) EmptyString)))))))))).

(** ** Predicates on records, devices and runs *)

(** A [char] array that holds a terminated string. *)
Definition terminated (a : list Z) : Prop := In 0 a.

(** The string a [char] array holds: its bytes up to the terminator, as
    [String(config.ssidPrefix)] reads them. *)
Fixpoint c_string (a : list Z) : list Z :=
  match a with
  | [] => []
  | b :: r => if b =? 0 then [] else b :: c_string r
  end.

(** A value between 0 and 100, as the sketch compares it. *)
Definition percent (x : spec_float) : bool :=
  F64.leb d0 (to_double x) && F64.leb (to_double x) d100.

(** The height is usable and the fill percentage shown is a percentage. *)
Definition level_ok (d : Device) : Prop :=
  is_pos_finite (barrelHeightCm (config d)) = true /\
  percent (currentWaterLevel d) = true.

(** Events with neither a request nor the button held. *)
Definition untouched (ev : Event) : Prop :=
  match ev with
  | Tick env => request env = None /\ button_low env = false
  | SendDone _ => True
  end.

(** A tick without a request, with the button held and the hold, counted
    from [start], still under the threshold. *)
Definition held_below (start : Z) (ev : Event) : Prop :=
  match ev with
  | Tick env =>
      request env = None /\ button_low env = true /\
      u32 (millis env - start) < BTN_HOLD_MS
  | SendDone _ => True
  end.


(** What the long-press detector owns and what it can destroy. *)
Definition same_button_state (d d' : Device) : Prop :=
  t0 d' = t0 d /\ pressed d' = pressed d /\ flash d' = flash d /\
  restarted d' = restarted d /\
  count_line LineLongPress d' = count_line LineLongPress d.


Ltac simpl_cfg :=
  cbn [parentMac refreshRateMs barrelHeightCm ledEnabled ssidPrefix wifiPassword
       set_parentMac set_refreshRateMs set_barrelHeightCm set_ledEnabled
       set_ssidPrefix set_wifiPassword] in *.

Ltac simpl_dev :=
  cbn [config currentDistance currentWaterLevel lastSensorRead espNowInitialized
       espNowSendSuccess lastEspNowSend lastEspNowRetry payload t0 pressed flash
       radio serial restarted
       set_config set_currentDistance set_currentWaterLevel set_lastSensorRead
       set_espNowSendSuccess set_lastEspNowSend set_lastEspNowRetry set_payload
       set_button set_flash transmit println ESP_restart set_serial] in *.

(** Zero, a finite value above zero, or plus infinity. *)
Definition is_nonneg (x : spec_float) : bool :=
  match x with
  | S754_zero _ | S754_finite false _ _ | S754_infinity false => true
  | _ => false
  end.

(** The values the conversions of [sscanf_mac] read from a text, and an
    array with its entries from [i] on overwritten by them. *)
Fixpoint scan_fields (k : nat) (s : string) : list Z :=
  match k with
  | O => []
  | S k' =>
      match scan_hhx s with
      | None => []
      | Some (v, rest) =>
          v :: match k', rest with
               | O, _ => []
               | _, String c r => if code c =? 58 then scan_fields k' r else []
               | _, EmptyString => []
               end
      end
  end.

Fixpoint overwrite (i : nat) (vs out : list Z) : list Z :=
  match vs with
  | [] => out
  | v :: r => overwrite (S i) r (<[i := v]> out)
  end.

(** * Properties *)

(** ** Time conversion *)

(** C10. For minutes and seconds between 0 and 59, converting the pair to
    milliseconds and back gives the pair again. *)
Theorem msToMinSec_minSecToMs (m s : Z) :
  0 <= m <= 59 -> 0 <= s <= 59 ->
  msToMinSec (minSecToMs m s) = (m, s).
Proof.
  intros Hm Hs. unfold msToMinSec, minSecToMs, u32, u8.
  rewrite (Z.mod_small ((m * 60 + s) * 1000)) by lia.
  replace ((m * 60 + s) * 1000) with (s * 1000 + m * 60000) by lia.
  rewrite Z.div_add, Z.mod_add by lia.
  rewrite (Z.div_small (s * 1000)), (Z.mod_small (s * 1000) 60000) by lia.
  rewrite Z.div_mul by lia.
  rewrite !Z.mod_small by lia.
  f_equal; lia.
Qed.

Lemma msToMinSec_minSecToMs_witness :
  msToMinSec (minSecToMs 59 59) = (59, 59).
Proof. apply msToMinSec_minSecToMs; lia. Defined.

(** ** Fill percentage: the empty cases *)

(** C5. For every container height, the fill percentage is 0 when the
    distance is the timeout sentinel of [measureDistanceCM] or is less
    than 20 cm. *)
Theorem calculateWaterLevel_empty (d h : spec_float) :
  d = measureDistanceCM 0 \/ F64.ltb (to_double d) d20 = true ->
  calculateWaterLevel d h = S754_zero false.
Proof.
  intros [-> | Hlt]; unfold calculateWaterLevel.
  - reflexivity.
  - rewrite Hlt. reflexivity.
Qed.

Lemma calculateWaterLevel_empty_witness :
  calculateWaterLevel (F32.of_Z 5) (F32.of_Z 50) = S754_zero false.
Proof. apply calculateWaterLevel_empty. right. reflexivity. Defined.

(** ** EEPROM buffer *)

Lemma for_upto_S {S : Type} (n : nat) (body : Z -> S -> S) (s : S) :
  for_upto (Datatypes.S n) body s = body (Z.of_nat n) (for_upto n body s).
Proof.
  unfold for_upto. rewrite seq_S, fold_left_app. reflexivity.
Qed.

Lemma EEPROM_write_data (a v : Z) (e : EEPROMClass) :
  _data (EEPROM_write a v e) =
  if in_range a then <[Z.to_nat a := u8 v]> (_data e) else _data e.
Proof.
  unfold EEPROM_write. destruct (in_range a); [|reflexivity].
  destruct (_data e !! Z.to_nat a) as [old|] eqn:Hl.
  - destruct (Z.eqb_spec old (u8 v)) as [->|Hne]; simpl.
    + symmetry. apply list_insert_id. exact Hl.
    + reflexivity.
  - symmetry. apply list_insert_ge. apply lookup_ge_None. exact Hl.
Qed.

Lemma in_sync_begin (fl : list Z) : in_sync fl (EEPROM_begin fl).
Proof. intros _. reflexivity. Qed.

Lemma in_sync_write (fl : list Z) (a v : Z) (e : EEPROMClass) :
  in_sync fl e -> in_sync fl (EEPROM_write a v e).
Proof.
  unfold in_sync, EEPROM_write. intros H.
  destruct (in_range a); [|exact H].
  destruct (_data e !! Z.to_nat a) as [old|]; [|exact H].
  destruct (old =? u8 v); [exact H|]. simpl. discriminate.
Qed.

Lemma in_sync_for_upto (fl : list Z) (n : nat) (f g : Z -> Z) (e : EEPROMClass) :
  in_sync fl e -> in_sync fl (for_upto n (fun i => EEPROM_write (f i) (g i)) e).
Proof.
  intros H. induction n as [|n IH]; [exact H|].
  rewrite for_upto_S. apply in_sync_write. exact IH.
Qed.

Lemma data_for_upto (n : nat) (f g : Z -> Z) (e : EEPROMClass) :
  (forall i, (i < n)%nat -> in_range (f (Z.of_nat i)) = true) ->
  _data (for_upto n (fun i => EEPROM_write (f i) (g i)) e) =
  for_upto n (fun i l => <[Z.to_nat (f i) := u8 (g i)]> l) (_data e).
Proof.
  intros Hr. induction n as [|n IH]; [reflexivity|].
  rewrite !for_upto_S, EEPROM_write_data, Hr by lia.
  rewrite IH; [reflexivity|]. intros i Hi. apply Hr. lia.
Qed.

(** An accepted commit, and the [end] after it, leave the buffer in the
    flash. *)
Lemma commit_accepted (fl : list Z) (e : EEPROMClass) :
  in_sync fl e ->
  exists e', EEPROM_commit true e fl = (true, e', _data e) /\
             _data e' = _data e /\ _dirty e' = false.
Proof.
  intros H. unfold EEPROM_commit. destruct (_dirty e) eqn:Hd; simpl.
  - eexists. split; [reflexivity|]. split; reflexivity.
  - exists e. rewrite (H Hd). split; [reflexivity|]. split; [reflexivity|exact Hd].
Qed.

(** A commit that reports success leaves the buffer in the flash. *)
Lemma commit_reported (ok : bool) (fl : list Z) (e e' : EEPROMClass) (fl' : list Z) :
  in_sync fl e ->
  EEPROM_commit ok e fl = (true, e', fl') ->
  fl' = _data e /\ _dirty e' = false.
Proof.
  intros H. unfold EEPROM_commit. destruct (_dirty e) eqn:Hd; simpl.
  - destruct ok; [|discriminate]. intros [= <- <-]. split; reflexivity.
  - intros [= <- <-]. split; [symmetry; apply H, Hd|exact Hd].
Qed.

Lemma end_clean (ok : bool) (fl : list Z) (e : EEPROMClass) :
  _dirty e = false -> EEPROM_end ok e fl = fl.
Proof. intros H. unfold EEPROM_end, EEPROM_commit. rewrite H. reflexivity. Qed.

Lemma clearConfig_data (fl : list Z) :
  clearConfig true fl =
  for_upto 64 (fun i l => <[Z.to_nat i := 255]> l) fl.
Proof.
  unfold clearConfig.
  set (e := for_upto _ _ _).
  assert (Hs : in_sync fl e).
  { apply (in_sync_for_upto fl _ (fun i => i) (fun _ => 255)), in_sync_begin. }
  destruct (commit_accepted fl e Hs) as (e' & -> & Hd & Hc).
  rewrite end_clean by exact Hc.
  subst e. rewrite (data_for_upto _ (fun i => i) (fun _ => 255)).
  - reflexivity.
  - intros i Hi. change (Z.to_nat EEPROM_SIZE) with 64%nat in Hi.
    unfold in_range, EEPROM_SIZE. lia.
Qed.

Lemma fill_lookup (n : nat) (l : list Z) (j : nat) :
  (j < n)%nat ->
  for_upto n (fun i l => <[Z.to_nat i := 255]> l) l !! j =
  if decide (j < length l)%nat then Some 255 else None.
Proof.
  revert j. induction n as [|n IH]; intros j Hj; [lia|].
  rewrite for_upto_S, Nat2Z.id.
  assert (Hlen : length (for_upto n (fun i l => <[Z.to_nat i := 255]> l) l) = length l).
  { clear. induction n as [|n IH]; [reflexivity|].
    rewrite for_upto_S, length_insert. exact IH. }
  destruct (decide (j = n)) as [->|Hne].
  - destruct (decide (n < length l)%nat) as [Hl|Hl].
    + apply list_lookup_insert_eq. lia.
    + rewrite list_insert_ge by lia. apply lookup_ge_None. lia.
  - rewrite list_lookup_insert_ne by lia. apply IH. lia.
Qed.

(** The whole block is overwritten with 0xFF. *)
Lemma clearConfig_erases (fl : list Z) :
  length fl = 64%nat -> clearConfig true fl = replicate 64 255.
Proof.
  intros Hlen. rewrite clearConfig_data.
  apply list_eq. intros j.
  destruct (decide (j < 64)%nat) as [Hj|Hj].
  - rewrite fill_lookup by exact Hj.
    rewrite decide_True by lia.
    symmetry. apply lookup_replicate_2. exact Hj.
  - rewrite !lookup_ge_None_2; [reflexivity| |].
    + rewrite length_replicate. lia.
    + assert (Hl : forall n, length (for_upto n (fun i l => <[Z.to_nat i := 255]> l) fl) = length fl).
      { induction n as [|n IH]; [reflexivity|]. rewrite for_upto_S, length_insert. exact IH. }
      rewrite Hl. lia.
Qed.

(** Byte 63 of an erased store is not the marker, whatever the size of
    the list that stands for the store. *)
Lemma loadConfig_cleared (fl : list Z) (cfg : Config) :
  loadConfig (clearConfig true fl) cfg = (false, cfg).
Proof.
  unfold loadConfig, EEPROM_read, EEPROM_begin. simpl _data.
  change (in_range 63) with true. cbv iota.
  rewrite clearConfig_data.
  change (Z.to_nat 63) with 63%nat.
  rewrite fill_lookup by lia.
  destruct (decide _); reflexivity.
Qed.

(** A commit the flash refuses leaves the sector as it was, and
    [clearConfig] does not look at the result of its commit. *)
Lemma clearConfig_refused (fl : list Z) : clearConfig false fl = fl.
Proof.
  unfold clearConfig.
  set (e := for_upto _ _ _).
  unfold EEPROM_end, EEPROM_commit.
  destruct (_dirty e) eqn:Hd; cbn [negb]; cbn [_dirty]; rewrite Hd; reflexivity.
Qed.

(** C6, as the store does it. With the commit accepted, [clearConfig]
    overwrites the whole 64-byte block, marker included, with 0xFF,
    whatever the block held, and [loadConfig] then reports no record and
    leaves the caller's configuration as it is. With the commit refused,
    [clearConfig] returns all the same and the block is as before. *)
Theorem loadConfig_after_clearConfig (ok : bool) (fl : list Z) (cfg : Config) :
  length fl = 64%nat ->
  clearConfig ok fl = (if ok then replicate 64 255 else fl) /\
  loadConfig (clearConfig ok fl) cfg =
    (if ok then (false, cfg) else loadConfig fl cfg).
Proof.
  intros Hlen. destruct ok.
  - split; [apply clearConfig_erases, Hlen|apply loadConfig_cleared].
  - rewrite clearConfig_refused. split; reflexivity.
Qed.

Lemma loadConfig_after_clearConfig_witness :
  let fl := snd (saveConfig true tank_config blank_flash) in
  clearConfig true fl = replicate 64 255 /\
  loadConfig (clearConfig true fl) default_config = (false, default_config).
Proof.
  apply (loadConfig_after_clearConfig true
           (snd (saveConfig true tank_config blank_flash)) default_config).
  vm_compute. reflexivity.
Defined.

(** C6, as stated, fails: with a saved record in the store and a flash
    that refuses the commit, [clearConfig] returns as always, the block
    is as before, and [loadConfig] finds the record. *)
Lemma clearConfig_refused_keeps_record :
  let fl := snd (saveConfig true tank_config blank_flash) in
  clearConfig false fl = fl /\
  EEPROM_read 63 (EEPROM_begin (clearConfig false fl)) = 170 /\
  loadConfig (clearConfig false fl) default_config = (true, tank_config).
Proof.
  vm_compute. repeat split; reflexivity.
Qed.

(** ** Floating point: no NaN out of rounding *)

Lemma shr_1_nonneg (mrs : shr_record) : 0 <= shr_m mrs -> 0 <= shr_m (shr_1 mrs).
Proof.
  destruct mrs as [m r s]. simpl.
  destruct m as [|p|p]; simpl; try lia.
  - destruct p; simpl; lia.
Qed.

Lemma iter_pos_shr_1_nonneg (p : positive) (mrs : shr_record) :
  0 <= shr_m mrs -> 0 <= shr_m (SpecFloat.iter_pos shr_1 p mrs).
Proof.
  revert mrs. induction p as [p IH|p IH|]; intros mrs H; simpl.
  - apply IH, IH, shr_1_nonneg, H.
  - apply IH, IH, H.
  - apply shr_1_nonneg, H.
Qed.

Lemma shr_nonneg (mrs : shr_record) (e n : Z) :
  0 <= shr_m mrs -> 0 <= shr_m (fst (shr mrs e n)).
Proof.
  intros H. unfold shr. destruct n; simpl; try exact H.
  apply iter_pos_shr_1_nonneg, H.
Qed.

Lemma shr_fexp_nonneg (prec emax m e : Z) (l : location) :
  0 <= m -> 0 <= shr_m (fst (shr_fexp prec emax m e l)).
Proof.
  intros H. unfold shr_fexp. apply shr_nonneg.
  destruct l as [|[]]; exact H.
Qed.

Lemma round_nearest_even_nonneg (m : Z) (l : location) :
  0 <= m -> 0 <= round_nearest_even m l.
Proof.
  intros H. unfold round_nearest_even.
  destruct l as [|[]]; try lia. destruct (Z.even m); lia.
Qed.

Lemma binary_round_aux_not_nan (prec emax : Z) (sx : bool) (mx ex : Z) (lx : location) :
  0 <= mx -> is_nan (binary_round_aux prec emax sx mx ex lx) = false.
Proof.
  intros H. unfold binary_round_aux.
  pose proof (shr_fexp_nonneg prec emax mx ex lx H) as H1.
  destruct (shr_fexp prec emax mx ex lx) as [mrs' e']. simpl in H1.
  pose proof (round_nearest_even_nonneg _ (loc_of_shr_record mrs') H1) as H2.
  pose proof (shr_fexp_nonneg prec emax _ e' loc_Exact H2) as H3.
  destruct (shr_fexp prec emax _ e' loc_Exact) as [mrs'' e'']. simpl in H3.
  destruct (shr_m mrs'') as [|p|p]; [reflexivity| |lia].
  destruct (e'' <=? emax - prec); reflexivity.
Qed.

Lemma binary_round_not_nan (prec emax : Z) (s : bool) (m : positive) (e : Z) :
  is_nan (binary_round prec emax s m e) = false.
Proof.
  unfold binary_round. destruct (shl_align _ _ _) as [mz ez].
  apply binary_round_aux_not_nan. lia.
Qed.

Lemma binary_normalize_not_nan (prec emax m e : Z) (sz : bool) :
  is_nan (binary_normalize prec emax m e sz) = false.
Proof.
  destruct m; simpl; [reflexivity| |]; apply binary_round_not_nan.
Qed.

Lemma to_double_nan (x : spec_float) : is_nan (to_double x) = is_nan x.
Proof. destruct x; simpl; try reflexivity. apply binary_round_not_nan. Qed.

Lemma to_float_nan (x : spec_float) : is_nan (to_float x) = is_nan x.
Proof. destruct x; simpl; try reflexivity. apply binary_round_not_nan. Qed.

Lemma SFsub_finite_r (prec emax : Z) (x y : spec_float) :
  is_nan x = false -> is_finite y = true -> is_nan (SFsub prec emax x y) = false.
Proof.
  destruct x as [sx|sx| |sx mx ex], y as [sy|sy| |sy my ey];
    simpl; try discriminate; intros _ _; try reflexivity.
  - destruct sx, sy; reflexivity.
  - apply binary_normalize_not_nan.
Qed.

Lemma SFsub_finite_l (prec emax : Z) (x y : spec_float) :
  is_finite x = true -> is_nan y = false -> is_nan (SFsub prec emax x y) = false.
Proof.
  destruct x as [sx|sx| |sx mx ex], y as [sy|sy| |sy my ey];
    simpl; try discriminate; intros _ _; try reflexivity.
  - destruct sx, sy; reflexivity.
  - apply binary_normalize_not_nan.
Qed.

Lemma SFdiv_core_binary_nonneg (prec emax : Z) (m1 m2 : positive) (e1 e2 : Z) :
  0 <= fst (fst (SFdiv_core_binary prec emax (Zpos m1) e1 (Zpos m2) e2)).
Proof.
  unfold SFdiv_core_binary.
  set (s := _ - _ - Z.min _ _).
  set (m' := match s with Z0 => _ | Zpos _ => _ | Zneg _ => _ end).
  assert (Hm : 0 <= m').
  { subst m'. destruct s; try lia. apply Z.shiftl_nonneg. lia. }
  pose proof (Z_div_mod m' (Zpos m2) eq_refl) as Hdm.
  destruct (Z.div_eucl m' (Zpos m2)) as [q r]. simpl.
  destruct Hdm as [Heq Hr]. nia.
Qed.

Lemma SFdiv_by_finite (prec emax : Z) (x : spec_float) (s : bool) (m : positive) (e : Z) :
  is_nan x = false -> is_nan (SFdiv prec emax x (S754_finite s m e)) = false.
Proof.
  destruct x as [sx|sx| |sx mx ex]; simpl; try discriminate; intros _; try reflexivity.
  pose proof (SFdiv_core_binary_nonneg prec emax mx m ex e) as H.
  destruct (SFdiv_core_binary _ _ _ _ _ _) as [[mz ez] lz]. simpl in H.
  apply binary_round_aux_not_nan, H.
Qed.

Lemma SFmul_by_finite (prec emax : Z) (x : spec_float) (s : bool) (m : positive) (e : Z) :
  is_nan x = false -> is_nan (SFmul prec emax x (S754_finite s m e)) = false.
Proof.
  destruct x as [sx|sx| |sx mx ex]; simpl; try discriminate; intros _; try reflexivity.
  apply binary_round_aux_not_nan. lia.
Qed.

(** ** Floating point: comparison *)

Lemma SFcompare_antisym (x y : spec_float) (c : comparison) :
  SFcompare x y = Some c -> SFcompare y x = Some (CompOpp c).
Proof.
  destruct x as [sx|sx| |sx mx ex], y as [sy|sy| |sy my ey]; simpl;
    try discriminate; intros [= <-]; try reflexivity;
    try (destruct sx; reflexivity); try (destruct sy; reflexivity);
    try (destruct sx, sy; reflexivity).
  f_equal. rewrite (Z.compare_antisym ex ey).
  change (Pos.compare_cont Eq my mx) with (Pos.compare my mx).
  change (Pos.compare_cont Eq mx my) with (Pos.compare mx my).
  rewrite (Pos.compare_antisym mx my).
  destruct sx, sy; try reflexivity;
    destruct (ex ?= ey); simpl; try reflexivity;
    destruct (mx ?= my)%positive; reflexivity.
Qed.

Lemma SFcompare_total (x y : spec_float) :
  is_nan x = false -> is_nan y = false -> exists c, SFcompare x y = Some c.
Proof.
  destruct x, y; simpl; try discriminate; intros _ _; eexists; reflexivity.
Qed.

Lemma SFleb_not_nan (x y : spec_float) :
  SFleb x y = true -> is_nan x = false /\ is_nan y = false.
Proof.
  unfold SFleb. destruct x, y; simpl; try discriminate; auto.
Qed.

Lemma SFleb_of_not_ltb (x y : spec_float) :
  is_nan x = false -> is_nan y = false -> SFltb x y = false -> SFleb y x = true.
Proof.
  intros Hx Hy. destruct (SFcompare_total x y Hx Hy) as [c Hc].
  unfold SFltb, SFleb. rewrite Hc, (SFcompare_antisym _ _ _ Hc).
  destruct c; simpl; congruence.
Qed.

Lemma SFltb_of_leb (x y : spec_float) : SFleb x y = true -> SFltb y x = false.
Proof.
  unfold SFleb, SFltb. destruct (SFcompare x y) as [c|] eqn:Hc; [|discriminate].
  rewrite (SFcompare_antisym _ _ _ Hc). destruct c; simpl; congruence.
Qed.

(** ** Fill percentage: the clamp *)

Lemma fill_raw_not_nan (d h : spec_float) :
  is_nan d = false -> is_pos_finite h = true -> is_nan (fill_raw d h) = false.
Proof.
  intros Hd Hh. destruct h as [| | |[] m e]; try discriminate.
  unfold fill_raw. rewrite to_float_nan.
  apply SFmul_by_finite. rewrite to_double_nan.
  apply SFdiv_by_finite. apply SFsub_finite_l; [reflexivity|].
  rewrite to_float_nan. apply SFsub_finite_r; [|reflexivity].
  rewrite to_double_nan. exact Hd.
Qed.

Lemma fill_clamp_bounds (raw : spec_float) :
  is_nan raw = false ->
  F64.leb d0 (to_double (fill_clamp raw)) = true /\
  F64.leb (to_double (fill_clamp raw)) d100 = true.
Proof.
  intros Hn. unfold fill_clamp, F64.leb, F64.ltb.
  assert (Hn' : is_nan (to_double raw) = false) by (rewrite to_double_nan; exact Hn).
  destruct (SFltb (to_double raw) d0) eqn:H0.
  - split; reflexivity.
  - destruct (SFltb d100 (to_double raw)) eqn:H1.
    + split; vm_compute; reflexivity.
    + split; apply SFleb_of_not_ltb; auto.
Qed.

(** C4. For a distance of at least 20 cm and a positive finite height,
    [calculateWaterLevel] is the raw percentage
    ((h - (d - 20)) / h) * 100 clamped, and lies between 0 and 100; for
    h = 50 and d = 25 it is exactly 90. *)
Theorem calculateWaterLevel_clamped (d h : spec_float) :
  F64.leb d20 (to_double d) = true ->
  is_pos_finite h = true ->
  calculateWaterLevel d h = fill_clamp (fill_raw d h) /\
  F64.leb d0 (to_double (calculateWaterLevel d h)) = true /\
  F64.leb (to_double (calculateWaterLevel d h)) d100 = true /\
  calculateWaterLevel (F32.of_Z 25) (F32.of_Z 50) = F32.of_Z 90.
Proof.
  intros Hd Hh.
  assert (Heq : calculateWaterLevel d h = fill_clamp (fill_raw d h)).
  { unfold calculateWaterLevel, fill_clamp.
    rewrite (SFltb_of_leb _ _ Hd : F64.ltb (to_double d) d20 = false).
    fold (fill_raw d h).
    destruct (F64.ltb (to_double (fill_raw d h)) d0); reflexivity. }
  assert (Hn : is_nan d = false).
  { apply SFleb_not_nan in Hd. rewrite to_double_nan in Hd. apply Hd. }
  pose proof (fill_clamp_bounds _ (fill_raw_not_nan d h Hn Hh)) as [Hlo Hhi].
  rewrite Heq. split; [reflexivity|]. split; [exact Hlo|]. split; [exact Hhi|].
  vm_compute. reflexivity.
Qed.

Lemma calculateWaterLevel_clamped_witness :
  calculateWaterLevel (F32.of_Z 25) (F32.of_Z 50) = fill_clamp (fill_raw (F32.of_Z 25) (F32.of_Z 50)) /\
  F64.leb d0 (to_double (calculateWaterLevel (F32.of_Z 25) (F32.of_Z 50))) = true /\
  F64.leb (to_double (calculateWaterLevel (F32.of_Z 25) (F32.of_Z 50))) d100 = true /\
  calculateWaterLevel (F32.of_Z 25) (F32.of_Z 50) = F32.of_Z 90.
Proof. apply calculateWaterLevel_clamped; reflexivity. Defined.

(** ** The object representation of a [float] *)

Lemma digits2_pos_bounds (m : positive) :
  2 ^ (Zpos (digits2_pos m) - 1) <= Zpos m < 2 ^ Zpos (digits2_pos m).
Proof.
  induction m as [m IH|m IH|]; simpl digits2_pos.
  - rewrite Pos2Z.inj_succ.
    replace (Z.succ (Zpos (digits2_pos m)) - 1) with (Z.succ (Zpos (digits2_pos m) - 1)) by lia.
    rewrite !Z.pow_succ_r by lia. lia.
  - rewrite Pos2Z.inj_succ.
    replace (Z.succ (Zpos (digits2_pos m)) - 1) with (Z.succ (Zpos (digits2_pos m) - 1)) by lia.
    rewrite !Z.pow_succ_r by lia. lia.
  - simpl. lia.
Qed.

(** What [F32.valid] says of a finite value: a 24-bit mantissa, normal
    (leading bit set) unless the exponent is the least one. *)
Lemma valid_finite_bounds (s : bool) (m : positive) (e : Z) :
  F32.valid (S754_finite s m e) = true ->
  -149 <= e <= 104 /\ Zpos m < 2 ^ 24 /\ (Zpos m < 2 ^ 23 -> e = -149).
Proof.
  unfold F32.valid, valid_binary, bounded, canonical_mantissa, fexp, emin,
    F32.prec, F32.emax.
  intros H. apply andb_prop in H as [Hc He].
  apply Z.eqb_eq in Hc. apply Z.leb_le in He.
  pose proof (digits2_pos_bounds m) as [Hlo Hhi].
  set (dg := Zpos (digits2_pos m)) in *.
  assert (Hdg : 0 < dg) by (subst dg; lia).
  assert (Hle : dg <= 24).
  { destruct (Z.max_spec (dg + e - 24) (3 - 128 - 24)) as [[_ Hm]|[_ Hm]]; lia. }
  split; [|split].
  - destruct (Z.max_spec (dg + e - 24) (3 - 128 - 24)) as [[_ Hm]|[_ Hm]]; lia.
  - eapply Z.lt_le_trans; [exact Hhi|]. apply Z.pow_le_mono_r; lia.
  - intros Hsmall.
    destruct (Z.max_spec (dg + e - 24) (3 - 128 - 24)) as [[_ Hm]|[Hge Hm]]; [lia|].
    assert (dg = 24) by lia.
    replace (dg - 1) with 23 in Hlo by lia. lia.
Qed.

Lemma float_fields (s : bool) (E M : Z) :
  0 <= E < 256 -> 0 <= M < 2 ^ 23 ->
  let b := sign_bit s + (E * 2 ^ 23 + M) in
  Z.testbit b 31 = s /\ (b / 2 ^ 23) mod 256 = E /\ b mod 2 ^ 23 = M /\
  0 <= b < 2 ^ 32.
Proof.
  intros HE HM b.
  assert (Hs : sign_bit s = Z.b2z s * 2 ^ 31) by (destruct s; reflexivity).
  assert (Hr : 0 <= E * 2 ^ 23 + M < 2 ^ 31) by lia.
  split; [|split; [|split]].
  - rewrite Z.testbit_eqb by lia. subst b. rewrite Hs.
    rewrite Z.add_comm, Z.div_add by lia.
    rewrite Z.div_small by lia. simpl.
    destruct s; reflexivity.
  - subst b. rewrite Hs.
    replace (Z.b2z s * 2 ^ 31 + (E * 2 ^ 23 + M))
      with (M + (Z.b2z s * 256 + E) * 2 ^ 23) by lia.
    rewrite Z.div_add by lia. rewrite Z.div_small by lia.
    rewrite Z.add_0_l, Z.add_comm, Z.mod_add by lia.
    apply Z.mod_small. lia.
  - subst b. rewrite Hs.
    replace (Z.b2z s * 2 ^ 31 + (E * 2 ^ 23 + M))
      with (M + (Z.b2z s * 256 + E) * 2 ^ 23) by lia.
    rewrite Z.mod_add by lia. apply Z.mod_small. lia.
  - subst b. rewrite Hs. destruct s; simpl Z.b2z; lia.
Qed.

Lemma bits_of_float_range (x : spec_float) :
  F32.valid x = true -> 0 <= bits_of_float x < 2 ^ 32.
Proof.
  intros Hv. destruct x as [s|s| |s m e]; unfold bits_of_float.
  - destruct s; simpl; lia.
  - destruct s; simpl; lia.
  - lia.
  - destruct (valid_finite_bounds s m e Hv) as (He & Hm & Hsub).
    destruct (Z.leb_spec (2 ^ 23) (Zpos m)) as [Hn|Hn].
    + apply (float_fields s (e + 150) (Zpos m - 2 ^ 23)); lia.
    + replace (Zpos m) with (0 * 2 ^ 23 + Zpos m) at 1 3 by lia.
      apply (float_fields s 0 (Zpos m)); lia.
Qed.

Lemma float_of_bits_of_float (x : spec_float) :
  F32.valid x = true -> float_of_bits (bits_of_float x) = x.
Proof.
  intros Hv. destruct x as [s|s| |s m e].
  - destruct s; reflexivity.
  - destruct s; reflexivity.
  - reflexivity.
  - destruct (valid_finite_bounds s m e Hv) as (He & Hm & Hsub).
    unfold bits_of_float.
    destruct (Z.leb_spec (2 ^ 23) (Zpos m)) as [Hn|Hn].
    + destruct (float_fields s (e + 150) (Zpos m - 2 ^ 23)) as (Hs & HE & HM & _);
        [lia|lia|].
      unfold float_of_bits. cbv zeta. rewrite Hs, HE, HM.
      destruct (Z.eqb_spec (e + 150) 0); [lia|].
      destruct (Z.eqb_spec (e + 150) 255); [lia|].
      f_equal; [|lia].
      replace (Zpos m - 2 ^ 23 + 2 ^ 23) with (Zpos m) by lia. reflexivity.
    + pose proof (float_fields s 0 (Zpos m) ltac:(lia) ltac:(lia)) as H.
      cbv zeta in H. replace (0 * 2 ^ 23 + Zpos m) with (Zpos m) in H by lia.
      destruct H as (Hs & HE & HM & _).
      unfold float_of_bits. cbv zeta. rewrite Hs, HE, HM.
      simpl (0 =? 0). cbv iota.
      destruct (Z.eqb_spec (Zpos m) 0); [lia|].
      f_equal. symmetry. apply Hsub. exact Hn.
Qed.

(** A byte written low-first at bit [k] of a 32-bit word. *)
Lemma byte_bit (r k n : Z) :
  0 <= k -> 0 <= n ->
  Z.testbit (u32 (Z.shiftl (u8 (Z.land (Z.shiftr r k) 255)) k)) n =
  Z.testbit r n && (k <=? n) && (n <? k + 8) && (n <? 32).
Proof.
  intros Hk Hn. unfold u8, u32.
  change 256 with (2 ^ 8). change 255 with (Z.ones 8).
  rewrite <- !Z.land_ones by lia.
  rewrite Z.land_spec, Z.shiftl_spec by lia.
  destruct (Z.leb_spec k n) as [Hkn|Hkn].
  - rewrite !Z.land_spec, Z.shiftr_spec by lia.
    replace (n - k + k) with n by lia.
    destruct (Z.ltb_spec n (k + 8)).
    + rewrite (Z.ones_spec_low 8) by lia.
      destruct (Z.ltb_spec n 32).
      * rewrite Z.ones_spec_low by lia. rewrite !andb_true_r. reflexivity.
      * rewrite Z.ones_spec_high by lia. rewrite !andb_false_r. reflexivity.
    + rewrite (Z.ones_spec_high 8) by lia. rewrite !andb_false_r. reflexivity.
  - rewrite Z.testbit_neg_r by lia. rewrite !andb_false_r. reflexivity.
Qed.

(** Four bytes written low byte first, read back and put together. *)
Lemma le32_roundtrip (r : Z) :
  0 <= r < 2 ^ 32 ->
  Z.lor (Z.lor (Z.lor (Z.lor 0
    (u32 (Z.shiftl (u8 (Z.land (Z.shiftr r 0) 255)) 0)))
    (u32 (Z.shiftl (u8 (Z.land (Z.shiftr r 8) 255)) 8)))
    (u32 (Z.shiftl (u8 (Z.land (Z.shiftr r 16) 255)) 16)))
    (u32 (Z.shiftl (u8 (Z.land (Z.shiftr r 24) 255)) 24)) = r.
Proof.
  intros Hr.
  apply Z.bits_inj'. intros n Hn.
  rewrite !Z.lor_spec, !byte_bit, Z.testbit_0_l by lia.
  destruct (Z.lt_ge_cases n 32) as [Hlt|Hge].
  - destruct (Z.testbit r n); simpl; [|reflexivity].
    destruct (Z.leb_spec 0 n), (Z.leb_spec 8 n), (Z.leb_spec 16 n), (Z.leb_spec 24 n),
      (Z.ltb_spec n (0 + 8)), (Z.ltb_spec n (8 + 8)), (Z.ltb_spec n (16 + 8)),
      (Z.ltb_spec n (24 + 8)), (Z.ltb_spec n 32); simpl; try reflexivity; lia.
  - replace (Z.testbit r n) with false; [reflexivity|].
    symmetry. destruct (Z.eq_dec r 0) as [->|Hnz]; [apply Z.testbit_0_l|].
    apply Z.bits_above_log2; [lia|].
    apply Z.lt_le_trans with 32; [|lia]. apply Z.log2_lt_pow2; lia.
Qed.

(** ** Persistent store: save then load *)

(** When [saveConfig] reports success, the flash holds the sector with
    every field written at its offset. *)
Lemma saveConfig_flash (ok : bool) (cfg : Config) (fl : list Z) :
  fst (saveConfig ok cfg fl) = true ->
  snd (saveConfig ok cfg fl) =
  (<[63%nat := u8 170]>
     (for_upto 32 (fun i l => <[Z.to_nat (31 + i) := u8 (elt (wifiPassword cfg) i)]> l)
     (for_upto 16 (fun i l => <[Z.to_nat (15 + i) := u8 (elt (ssidPrefix cfg) i)]> l)
     (<[14%nat := u8 (if ledEnabled cfg then 1 else 0)]>
     (for_upto 4 (fun i l =>
        <[Z.to_nat (10 + i) :=
            u8 (Z.land (Z.shiftr (bits_of_float (barrelHeightCm cfg)) (i * 8)) 255)]> l)
     (for_upto 4 (fun i l =>
        <[Z.to_nat (6 + i) := u8 (Z.land (Z.shiftr (refreshRateMs cfg) (i * 8)) 255)]> l)
     (for_upto 6 (fun i l => <[Z.to_nat i := u8 (elt (parentMac cfg) i)]> l) fl))))))).
Proof.
  unfold saveConfig.
  set (e1 := for_upto 6 _ (EEPROM_begin fl)).
  set (e2 := for_upto 4 _ e1).
  set (e3 := for_upto 4 _ e2).
  set (e4 := EEPROM_write 14 _ e3).
  set (e5 := for_upto 16 _ e4).
  set (e6 := for_upto 32 _ e5).
  set (e7 := EEPROM_write 63 170 e6).
  assert (Hs : in_sync fl e7).
  { subst e7 e6 e5 e4 e3 e2 e1.
    apply in_sync_write.
    apply (in_sync_for_upto fl 32 (fun i => 31 + i) (fun i => elt (wifiPassword cfg) i)).
    apply (in_sync_for_upto fl 16 (fun i => 15 + i) (fun i => elt (ssidPrefix cfg) i)).
    apply in_sync_write.
    apply (in_sync_for_upto fl 4 (fun i => 10 + i)
             (fun i => Z.land (Z.shiftr (bits_of_float (barrelHeightCm cfg)) (i * 8)) 255)).
    apply (in_sync_for_upto fl 4 (fun i => 6 + i)
             (fun i => Z.land (Z.shiftr (refreshRateMs cfg) (i * 8)) 255)).
    apply (in_sync_for_upto fl 6 (fun i => i) (fun i => elt (parentMac cfg) i)).
    apply in_sync_begin. }
  destruct (EEPROM_commit ok e7 fl) as [[success e'] fl'] eqn:Hcommit.
  simpl fst. simpl snd. intros ->.
  destruct (commit_reported ok fl e7 e' fl' Hs Hcommit) as (-> & Hc).
  rewrite end_clean by exact Hc.
  subst e7 e6 e5 e4 e3 e2 e1.
  rewrite EEPROM_write_data. change (in_range 63) with true. cbv iota.
  rewrite (data_for_upto 32 (fun i => 31 + i) (fun i => elt (wifiPassword cfg) i))
    by (intros i Hi; unfold in_range, EEPROM_SIZE; lia).
  rewrite (data_for_upto 16 (fun i => 15 + i) (fun i => elt (ssidPrefix cfg) i))
    by (intros i Hi; unfold in_range, EEPROM_SIZE; lia).
  rewrite EEPROM_write_data. change (in_range 14) with true. cbv iota.
  rewrite (data_for_upto 4 (fun i => 10 + i)
             (fun i => Z.land (Z.shiftr (bits_of_float (barrelHeightCm cfg)) (i * 8)) 255))
    by (intros i Hi; unfold in_range, EEPROM_SIZE; lia).
  rewrite (data_for_upto 4 (fun i => 6 + i)
             (fun i => Z.land (Z.shiftr (refreshRateMs cfg) (i * 8)) 255))
    by (intros i Hi; unfold in_range, EEPROM_SIZE; lia).
  rewrite (data_for_upto 6 (fun i => i) (fun i => elt (parentMac cfg) i))
    by (intros i Hi; unfold in_range, EEPROM_SIZE; lia).
  reflexivity.
Qed.

Lemma saveConfig_accepted (cfg : Config) (fl : list Z) :
  fst (saveConfig true cfg fl) = true.
Proof.
  unfold saveConfig. unfold EEPROM_commit at 1.
  destruct (negb _); reflexivity.
Qed.

Lemma u8_byte (b : Z) : byte_ok b -> u8 b = b.
Proof. intros H. apply Z.mod_small. exact H. Qed.

Lemma Forall_u8 (l : list Z) : Forall byte_ok l -> map u8 l = l.
Proof.
  induction 1 as [|b l Hb _ IH]; [reflexivity|].
  simpl. rewrite IH, (u8_byte b Hb). reflexivity.
Qed.


Lemma forallb_is_byte (l : list Z) : forallb is_byte l = true -> Forall byte_ok l.
Proof.
  induction l as [|b l IH]; simpl; intros H; constructor.
  - apply andb_prop in H as [H _]. unfold is_byte in H. unfold byte_ok. lia.
  - apply IH. apply andb_prop in H as [_ H]. exact H.
Qed.

Lemma config_ok_wf (c : Config) : config_ok c = true -> config_wf c.
Proof.
  unfold config_ok. intros H.
  repeat (apply andb_prop in H as [H ?]).
  constructor;
    try (apply Nat.eqb_eq; assumption);
    try (apply forallb_is_byte; assumption);
    try assumption.
  lia.
Qed.

(** The loops of [loadConfig] over one field of the record. *)
Lemma fold_parentMac (n : nat) (f : Z -> Z) (c : Config) :
  for_upto n (fun i c => set_parentMac (<[Z.to_nat i := f i]> (parentMac c)) c) c =
  set_parentMac (for_upto n (fun i l => <[Z.to_nat i := f i]> l) (parentMac c)) c.
Proof.
  induction n as [|n IH]; [destruct c; reflexivity|].
  rewrite !for_upto_S, IH. reflexivity.
Qed.

Lemma fold_ssidPrefix (n : nat) (f : Z -> Z) (c : Config) :
  for_upto n (fun i c => set_ssidPrefix (<[Z.to_nat i := f i]> (ssidPrefix c)) c) c =
  set_ssidPrefix (for_upto n (fun i l => <[Z.to_nat i := f i]> l) (ssidPrefix c)) c.
Proof.
  induction n as [|n IH]; [destruct c; reflexivity|].
  rewrite !for_upto_S, IH. reflexivity.
Qed.

Lemma fold_wifiPassword (n : nat) (f : Z -> Z) (c : Config) :
  for_upto n (fun i c => set_wifiPassword (<[Z.to_nat i := f i]> (wifiPassword c)) c) c =
  set_wifiPassword (for_upto n (fun i l => <[Z.to_nat i := f i]> l) (wifiPassword c)) c.
Proof.
  induction n as [|n IH]; [destruct c; reflexivity|].
  rewrite !for_upto_S, IH. reflexivity.
Qed.

Lemma fold_refreshRateMs (n : nat) (g : Z -> Z) (c : Config) :
  for_upto n (fun i c => set_refreshRateMs (Z.lor (refreshRateMs c) (g i)) c) c =
  set_refreshRateMs (for_upto n (fun i b => Z.lor b (g i)) (refreshRateMs c)) c.
Proof.
  induction n as [|n IH]; [destruct c; reflexivity|].
  rewrite !for_upto_S, IH. reflexivity.
Qed.

(** C2. Whenever [saveConfig] reports success, [loadConfig] on the
    resulting store finds the record and returns every field of the
    saved configuration unchanged. *)
Theorem loadConfig_saveConfig (ok : bool) (cfg cfg0 : Config) (fl : list Z) :
  config_wf cfg -> config_wf cfg0 -> length fl = 64%nat ->
  fst (saveConfig ok cfg fl) = true ->
  loadConfig (snd (saveConfig ok cfg fl)) cfg0 = (true, cfg).
Proof.
  intros Hwf Hwf0 Hfl Hok.
  rewrite (saveConfig_flash ok cfg fl Hok). clear Hok.
  pose proof (bits_of_float_range _ (wf_barrel _ Hwf)) as Hbits.
  pose proof (float_of_bits_of_float _ (wf_barrel _ Hwf)) as Hfloat.
  destruct Hwf as [Hm Hmb Hr _ Hs Hsb Hp Hpb].
  destruct Hwf0 as [Hm0 _ _ _ Hs0 _ Hp0 _].
  destruct cfg as [mac r bh led ssid pw].
  destruct cfg0 as [mac0 r0 bh0 led0 ssid0 pw0].
  cbn [parentMac refreshRateMs barrelHeightCm ledEnabled ssidPrefix wifiPassword] in *.
  explode mac Hm. explode ssid Hs. explode pw Hp.
  explode mac0 Hm0. explode ssid0 Hs0. explode pw0 Hp0.
  explode fl Hfl.
  destruct led.
  all: unfold loadConfig; cbv zeta.
  all: rewrite fold_parentMac, fold_refreshRateMs, fold_ssidPrefix, fold_wifiPassword.
  all: change (u8 170) with 170; change (u8 1) with 1; change (u8 0) with 0.
  all: cbv -[Z.shiftl Z.shiftr Z.land Z.lor u8 u32 bits_of_float float_of_bits].
  all: rewrite (le32_roundtrip r Hr), (le32_roundtrip _ Hbits), Hfloat.
  all: repeat match goal with
         | H : Forall byte_ok (_ :: _) |- _ =>
             apply Forall_cons in H; destruct H as [? H]
         end.
  all: rewrite !u8_byte by assumption.
  all: reflexivity.
Qed.

Lemma loadConfig_saveConfig_witness :
  loadConfig (snd (saveConfig true tank_config (replicate 64 255))) default_config
  = (true, tank_config).
Proof.
  apply loadConfig_saveConfig;
    [apply config_ok_wf; reflexivity | apply config_ok_wf; reflexivity
    | reflexivity | reflexivity].
Defined.

(** ** Forced and scheduled samples *)

(** C9. A forced sample ([/read]) measures, recomputes the fill
    percentage, overwrites the current reading, stamps the sample time
    with the clock and hands the reading to the link when the link is
    up; a scheduled sample does the same when it is due and nothing
    otherwise. The console line apart, the two leave the same device. *)
Theorem handleReadSensor_as_scheduled (env : Env) (d : Device) :
  let forced := snd (handleReadSensor env d) in
  let dist := measureDistanceCM (pulseIn env) in
  let level := calculateWaterLevel dist (barrelHeightCm (config d)) in
  currentDistance forced = dist /\
  currentWaterLevel forced = level /\
  lastSensorRead forced = millis env /\
  radio forced =
    (if espNowInitialized d
     then radio d ++ [(parentMac (config d),
                       mkPayload dist level (barrelHeightCm (config d)))]
     else radio d) /\
  fst (handleReadSensor env d) = Json dist level (barrelHeightCm (config d)) /\
  mute (updateSensorReadings env d) =
    (if sample_due env d then mute forced else mute d).
Proof.
  destruct d as [cfg cd cw ls ini suc lsend lretry pl bt bp fl rd se rs].
  unfold handleReadSensor, updateSensorReadings, sample_due, sendEspNowData, mute.
  cbn -[measureDistanceCM calculateWaterLevel u32 u8 Z.leb].
  destruct ini; cbn -[measureDistanceCM calculateWaterLevel u32 u8 Z.leb].
  - destruct (u8 (esp_now_send env) =? 0);
      cbn -[measureDistanceCM calculateWaterLevel u32 u8 Z.leb];
      repeat split; destruct (cfg.(refreshRateMs) <=? u32 (millis env - ls)); reflexivity.
  - repeat split; destruct (cfg.(refreshRateMs) <=? u32 (millis env - ls)); reflexivity.
Qed.

(** ** Saving a configuration *)

(** [handleSave] ends in one of the ways of [save_outcome]. *)
Lemma handleSave_outcome (env : Env) (req : Args) (d : Device) :
  save_outcome req d (handleSave env req d).
Proof.
  unfold handleSave.
  destruct (negb (hasArg req "pmac") || _ || _ || _); [constructor|].
  destruct (parseMac _ _) as [ok mac'].
  destruct ok; cbn [negb]; [|constructor].
  destruct ((59 <? _) || (59 <? _)) eqn:Ht; [constructor|].
  apply orb_false_elim in Ht as [Ht1 Ht2].
  apply Z.ltb_ge in Ht1, Ht2.
  destruct ((_ <=? 0) || (1000 <? _)).
  { apply (save_bad_barrel req d mac'). }
  cbv zeta.
  match goal with |- context [set_ledEnabled ?b] => generalize b; intros led end.
  match goal with |- context [F32.of_Z ?b] => generalize (F32.of_Z b); intros bh end.
  match goal with |- context [c_str ?b] => generalize (c_str b); intros ssid end.
  match goal with |- context [(0 <? ?a) && (?b <=? 15)] =>
    generalize ((0 <? a) && (b <=? 15)); intros fits_ssid end.
  match goal with |- context [c_str ?b] => generalize (c_str b); intros pw end.
  match goal with |- context [negb ?f && (0 <? ?a)] =>
    generalize (0 <? a); generalize f; intros fits nonempty end.
  destruct d as [cfg cd cw ls ini suc lsend lretry pl bt bp fl rd se rs].
  destruct cfg as [mac r bh0 led0 ssid0 pw0].
  cbn [config set_config set_parentMac set_refreshRateMs set_barrelHeightCm set_ledEnabled
       parentMac refreshRateMs barrelHeightCm ledEnabled ssidPrefix wifiPassword].
  destruct fits_ssid;
    cbn [config set_config set_ssidPrefix
         parentMac refreshRateMs barrelHeightCm ledEnabled ssidPrefix wifiPassword].
  all: destruct fits, nonempty; cbn [negb andb];
    cbn [config set_config set_wifiPassword flash
         parentMac refreshRateMs barrelHeightCm ledEnabled ssidPrefix wifiPassword].
  all: try (apply (save_bad_password req
              (mkDevice (mkConfig mac r bh0 led0 ssid0 pw0) cd cw ls ini suc lsend lretry pl bt bp fl rd se rs));
            reflexivity).
  all: destruct (saveConfig _ _ _) as [saved fl'].
  all: destruct saved.
  all: try (apply (save_done req
              (mkDevice (mkConfig mac r bh0 led0 ssid0 pw0) cd cw ls ini suc lsend lretry pl bt bp fl rd se rs));
            [exact Ht1|exact Ht2|reflexivity]).
  all: apply (save_failed req
              (mkDevice (mkConfig mac r bh0 led0 ssid0 pw0) cd cw ls ini suc lsend lretry pl bt bp fl rd se rs)).
Qed.


(** The reply of [handleSave]: a 400 with the message of the first check
    that fails, and a 200 or a 500 only when every check passes. *)
Lemma handleSave_reply (env : Env) (req : Args) (d : Device) :
  match save_error req (parentMac (config d)) with
  | Some body => fst (handleSave env req d) = Text 400 body
  | None => fst (handleSave env req d) = SAVED \/
            fst (handleSave env req d) = Text 500 "Failed to save settings"
  end.
Proof.
  unfold save_error, missing_parameter, bad_mac, bad_time, bad_barrel, bad_password,
    handleSave.
  destruct (negb (hasArg req "pmac") || _ || _ || _); [reflexivity|].
  destruct (parseMac _ _) as [ok mac']. cbn [fst].
  destruct ok; cbn [negb]; [|reflexivity].
  destruct ((59 <? _) || (59 <? _)); [reflexivity|].
  destruct ((_ <=? 0) || (1000 <? _)); [reflexivity|].
  cbv zeta.
  destruct (negb (_ && _) && (0 <? _)); [reflexivity|].
  destruct (saveConfig _ _ _) as [saved fl].
  destruct saved; [left|right]; reflexivity.
Qed.

(** C1, as the handler does it. A save request that fails one of the
    handler's checks is answered 400 with the message of the first check
    that fails; it persists nothing, does not restart the node and
    touches nothing but the configuration record; in the record the
    fields checked at or after the failing step keep their values. *)
Theorem handleSave_rejected (env : Env) (req : Args) (d : Device) (body : string) :
  save_error req (parentMac (config d)) = Some body ->
  let d' := snd (handleSave env req d) in
  fst (handleSave env req d) = Text 400 body /\
  d' = set_config (config d') d /\
  flash d' = flash d /\
  restarted d' = restarted d /\
  wifiPassword (config d') = wifiPassword (config d) /\
  (body <> PASSWORD_MSG ->
   ssidPrefix (config d') = ssidPrefix (config d) /\
   ledEnabled (config d') = ledEnabled (config d) /\
   barrelHeightCm (config d') = barrelHeightCm (config d)) /\
  (body <> PASSWORD_MSG -> body <> "Invalid barrel height"%string ->
   refreshRateMs (config d') = refreshRateMs (config d)) /\
  (body = "Missing parameters"%string -> config d' = config d).
Proof.
  intros Herr d'. subst d'.
  pose proof (handleSave_reply env req d) as Hreply. rewrite Herr in Hreply.
  split; [exact Hreply|].
  pose proof (handleSave_outcome env req d) as Hout.
  destruct (handleSave env req d) as [reply d']. cbn [fst snd] in *. subst reply.
  destruct_device d. destruct cfg_ as [mac r bh led ssid pw].
  inversion Hout; subst; cbn in *; subst; unfold PASSWORD_MSG in *; rejected_case.
Qed.

Lemma handleSave_rejected_witness :
  let d' := snd (handleSave (quiet 5000) bad_barrel_request tank_device) in
  fst (handleSave (quiet 5000) bad_barrel_request tank_device) =
    Text 400 "Invalid barrel height" /\
  d' = set_config (config d') tank_device /\
  flash d' = flash tank_device /\
  restarted d' = restarted tank_device /\
  wifiPassword (config d') = wifiPassword (config tank_device) /\
  (("Invalid barrel height"%string) <> PASSWORD_MSG ->
   ssidPrefix (config d') = ssidPrefix (config tank_device) /\
   ledEnabled (config d') = ledEnabled (config tank_device) /\
   barrelHeightCm (config d') = barrelHeightCm (config tank_device)) /\
  (("Invalid barrel height"%string) <> PASSWORD_MSG ->
   ("Invalid barrel height"%string) <> "Invalid barrel height"%string ->
   refreshRateMs (config d') = refreshRateMs (config tank_device)) /\
  (("Invalid barrel height"%string) = "Missing parameters"%string ->
   config d' = config tank_device).
Proof.
  apply (handleSave_rejected (quiet 5000) bad_barrel_request tank_device
           "Invalid barrel height").
  vm_compute. reflexivity.
Defined.

(** C1, as stated, fails: a request with a good MAC and time and a barrel
    height of 0 is answered 400, yet the peer MAC and the refresh rate of
    the running configuration have changed. *)
Lemma handleSave_rejection_not_atomic :
  let out := handleSave (quiet 5000) bad_barrel_request tank_device in
  fst out = Text 400 "Invalid barrel height" /\
  parentMac (config tank_device) = [1; 2; 3; 4; 5; 6] /\
  parentMac (config (snd out)) = [170; 187; 204; 221; 238; 255] /\
  refreshRateMs (config tank_device) = 60000 /\
  refreshRateMs (config (snd out)) = 90000 /\
  config (snd out) <> config tank_device.
Proof.
  vm_compute. repeat split; discriminate.
Qed.

(** The time check is made on the [uint8_t] the handler stores: a posted
    300 minutes is 44 minutes, passes the check and is saved. *)
Lemma handleSave_minutes_wrap :
  let req := [("pmac", "AA:BB:CC:DD:EE:FF"); ("minutes", "300"); ("seconds", "0");
              ("barrel", "80")]%string in
  let out := handleSave (quiet 5000) req tank_device in
  save_error req (parentMac (config tank_device)) = None /\
  fst out = SAVED /\
  refreshRateMs (config (snd out)) = 44 * 60000.
Proof.
  vm_compute. repeat split; reflexivity.
Qed.

(** C8, as the handler does it. The default interval is 5000 ms; a save
    that succeeds sets the interval to (minutes * 60 + seconds) * 1000
    with both parts between 0 and 59, and the interval is zero exactly
    when both parts are zero. *)
Theorem handleSave_interval (env : Env) (req : Args) (d : Device) :
  fst (handleSave env req d) = SAVED ->
  let minutes := u8 (toInt (arg req "minutes")) in
  let seconds := u8 (toInt (arg req "seconds")) in
  let r := refreshRateMs (config (snd (handleSave env req d))) in
  0 <= minutes <= 59 /\ 0 <= seconds <= 59 /\
  r = (minutes * 60 + seconds) * 1000 /\
  0 <= r <= 3599000 /\
  (r = 0 <-> minutes = 0 /\ seconds = 0) /\
  refreshRateMs default_config = 5000.
Proof.
  intros Hreply minutes seconds r. subst r.
  pose proof (handleSave_outcome env req d) as Hout.
  destruct (handleSave env req d) as [reply d']. cbn [fst snd] in *. subst reply.
  assert (Hm : 0 <= minutes < 256) by (apply Z.mod_pos_bound; lia).
  assert (Hs : 0 <= seconds < 256) by (apply Z.mod_pos_bound; lia).
  inversion Hout as [| | | | |cfg fl Hm59 Hs59 Hr|]; subst.
  fold minutes seconds in Hm59, Hs59, Hr.
  destruct_device d. cbn [ESP_restart set_flash set_config config].
  rewrite Hr. unfold minSecToMs, u32. rewrite Z.mod_small by lia.
  repeat split; try lia; reflexivity.
Qed.

Lemma handleSave_interval_witness :
  let minutes := u8 (toInt (arg zero_interval_request "minutes")) in
  let seconds := u8 (toInt (arg zero_interval_request "seconds")) in
  let r := refreshRateMs
             (config (snd (handleSave (quiet 5000) zero_interval_request tank_device))) in
  0 <= minutes <= 59 /\ 0 <= seconds <= 59 /\
  r = (minutes * 60 + seconds) * 1000 /\
  0 <= r <= 3599000 /\
  (r = 0 <-> minutes = 0 /\ seconds = 0) /\
  refreshRateMs default_config = 5000.
Proof.
  apply (handleSave_interval (quiet 5000) zero_interval_request tank_device).
  vm_compute. reflexivity.
Defined.

(** C8, as stated, fails: 0 minutes 0 seconds is saved, and the node
    comes back from the restart with an interval of 0 ms. *)
Lemma handleSave_accepts_zero_interval :
  let out := handleSave (quiet 5000) zero_interval_request tank_device in
  fst out = SAVED /\
  restarted (snd out) = true /\
  refreshRateMs (config (snd out)) = 0 /\
  refreshRateMs (config (setup (quiet 1300) (flash (snd out)))) = 0 /\
  ~ (0 < refreshRateMs (config (snd out))).
Proof.
  vm_compute. repeat split; discriminate.
Qed.

(** ** Retries of the link *)

Lemma count_lines_app (l : Line) (s1 s2 : list Line) :
  count_lines l (s1 ++ s2) = (count_lines l s1 + count_lines l s2)%nat.
Proof.
  induction s1 as [|x s1 IH]; simpl; [reflexivity|]. rewrite IH. lia.
Qed.












(** *** What reaches the retry block of an iteration *)
















(** ** Long press *)

Lemma checkButton_starts (env : Env) (d : Device) :
  button_low env = true -> t0 d = 0 ->
  checkButton env d = set_button (millis env) true d.
Proof. intros Hb Ht. unfold checkButton. rewrite Hb, Ht. reflexivity. Qed.

Lemma checkButton_waits (env : Env) (d : Device) :
  button_low env = true -> t0 d <> 0 ->
  u32 (millis env - t0 d) < BTN_HOLD_MS ->
  checkButton env d = d.
Proof.
  intros Hb Ht Hlt. unfold checkButton. rewrite Hb.
  destruct (Z.eqb_spec (t0 d) 0); [contradiction|].
  destruct (Z.leb_spec BTN_HOLD_MS (u32 (millis env - t0 d))); [lia|reflexivity].
Qed.

(** With the timer running, reaching the threshold is enough. *)
Lemma checkButton_fires (env : Env) (d : Device) :
  button_low env = true -> t0 d <> 0 ->
  BTN_HOLD_MS <= u32 (millis env - t0 d) ->
  checkButton env d =
  ESP_restart (set_flash (clearConfig (spi_flash_ok env) (flash d))
                         (println LineLongPress d)).
Proof.
  intros Hb Ht Hge. unfold checkButton. rewrite Hb.
  destruct (Z.eqb_spec (t0 d) 0); [contradiction|].
  destruct (Z.leb_spec BTN_HOLD_MS (u32 (millis env - t0 d))); [|lia].
  destruct d; reflexivity.
Qed.

Lemma checkButton_released (env : Env) (d : Device) :
  button_low env = false -> 0 <= t0 d ->
  restarted (checkButton env d) = restarted d /\
  flash (checkButton env d) = flash d /\
  (pressed d = true -> t0 (checkButton env d) = 0).
Proof.
  intros Hb Hnn. unfold checkButton. rewrite Hb.
  destruct (pressed d) eqn:Hp; cbn [andb].
  - destruct (Z.ltb_spec 0 (t0 d)) as [Hpos|Hneg].
    + destruct d; repeat split.
    + repeat split. lia.
  - repeat split. discriminate.
Qed.

(** C7 at the failing input. The clock has wrapped: the press is first
    seen in the iteration where [millis()] returns 0, and the line is
    still held in the iteration at 4000 ms. The timer variable takes the
    0 for "not timing", so the second iteration starts the timer instead
    of firing: no reset, the store is untouched. The same press seen
    first at 1 ms fires at 4001 ms. *)
Theorem checkButton_misses_hold_from_clock_zero :
  let d := run [Tick (quiet 4294960000)] tank_device in
  let missed := run [Tick (holding 0); Tick (holding 4000)] d in
  let fired := run [Tick (holding 1); Tick (holding 4001)] d in
  u32 (4000 - 0) = BTN_HOLD_MS /\
  restarted missed = false /\
  flash missed = flash tank_device /\
  count_line LineLongPress missed = 0%nat /\
  t0 missed = 4000 /\
  restarted fired = true /\
  flash fired = replicate 64 255 /\
  count_line LineLongPress fired = 1%nat.
Proof.
  vm_compute. repeat split; reflexivity.
Qed.

(** * Further properties *)

(** ** MAC addresses as text *)

Lemma code_range (c : ascii) : 0 <= code c < 256.
Proof.
  unfold code. pose proof (N_ascii_bounded c). lia.
Qed.

Lemma nibble_cases (n : Z) :
  0 <= n < 16 -> In n (List.map Z.of_nat (seq 0 16)).
Proof.
  intros H. replace n with (Z.of_nat (Z.to_nat n)) by lia.
  apply in_map, in_seq. lia.
Qed.

(** A digit of [%02X] is read back by [%hhx] as its value, and is neither
    white space, nor a sign, nor the x of a prefix. *)
Lemma hexchar_scanned (n : Z) :
  0 <= n < 16 ->
  xdigit_val (hexchar n) = Some n /\
  isspace (hexchar n) = false /\
  (code (hexchar n) =? 45) = false /\ (code (hexchar n) =? 43) = false /\
  ((code (hexchar n) =? 120) || (code (hexchar n) =? 88)) = false.
Proof.
  intros H. apply nibble_cases in H. vm_compute in H.
  repeat (destruct H as [<-|H]; [vm_compute; repeat split; reflexivity|]).
  destruct H.
Qed.

(** Two printed digits followed by something that is not a digit. *)
Lemma scan_hhx_hex2 (b : Z) (rest : string) :
  byte_ok b ->
  match rest with
  | EmptyString => True
  | String c _ => xdigit_val c = None
  end ->
  scan_hhx (hex2 b rest) = Some (b, rest).
Proof.
  intros Hb Hrest. unfold byte_ok in Hb.
  assert (Hhi : 0 <= b / 16 < 16).
  { split; [apply Z.div_pos; lia|apply Z.div_lt_upper_bound; lia]. }
  assert (Hlo : 0 <= b mod 16 < 16) by (apply Z.mod_pos_bound; lia).
  destruct (hexchar_scanned _ Hhi) as (Hv1 & Hs1 & Hm1 & Hp1 & _).
  destruct (hexchar_scanned _ Hlo) as (Hv2 & _ & _ & _ & Hx2).
  unfold scan_hhx, hex2.
  cbn [skip_space]. rewrite Hs1.
  cbn [scan_sign]. rewrite Hm1, Hp1.
  assert (Hskip : forall s, skip_0x (String (hexchar (b / 16)) (String (hexchar (b mod 16)) s))
                  = String (hexchar (b / 16)) (String (hexchar (b mod 16)) s)).
  { intros s. unfold skip_0x. destruct s; [reflexivity|].
    rewrite Hx2, andb_false_r. reflexivity. }
  rewrite Hskip.
  cbn [scan_digits]. rewrite Hv1. cbn [scan_digits]. rewrite Hv2.
  assert (Hval : u8 (strtoul_value false ((0 * 16 + b / 16) * 16 + b mod 16)) = b).
  { replace ((0 * 16 + b / 16) * 16 + b mod 16) with b
      by (Z.div_mod_to_equations; lia).
    unfold strtoul_value, ULONG_MAX, u32.
    change (2 ^ 32) with 4294967296.
    destruct (Z.ltb_spec (4294967296 - 1) b); [exfalso; lia|].
    unfold u8. rewrite (Z.mod_small b 4294967296) by lia.
    apply Z.mod_small. lia. }
  destruct rest as [|c r].
  - cbn [scan_digits]. rewrite Hval. reflexivity.
  - cbn [scan_digits]. rewrite Hrest. rewrite Hval. reflexivity.
Qed.

(** X1. [parseMac] reads back what [macToString] prints: the text of any
    six bytes parses, and the bytes stored are the bytes printed,
    whatever the array held before. *)
Theorem parseMac_macToString (mac out : list Z) :
  length mac = 6%nat -> Forall byte_ok mac -> length out = 6%nat ->
  parseMac (macToString mac) out = (true, mac).
Proof.
  intros Hm Hb Ho.
  explode mac Hm. explode out Ho.
  repeat match goal with
         | H : Forall byte_ok (_ :: _) |- _ =>
             apply Forall_cons in H; destruct H as [? H]
         end.
  unfold parseMac, macToString, elt. cbn [lookup list_lookup default from_option Z.to_nat Pos.to_nat Pos.iter_op Nat.add].
  unfold sscanf_mac.
  repeat (rewrite scan_hhx_hex2 by (assumption || reflexivity || exact I);
          cbn [code N_of_ascii Z.of_N]).
  reflexivity.
Qed.

Lemma parseMac_macToString_witness :
  parseMac (macToString [170; 187; 0; 5; 255; 16]) [0; 0; 0; 0; 0; 0] =
  (true, [170; 187; 0; 5; 255; 16]).
Proof.
  apply parseMac_macToString;
    [reflexivity|apply forallb_is_byte; reflexivity|reflexivity].
Defined.

(** ** What a save request can do to the record *)

Lemma scan_hhx_byte (s : string) (v : Z) (rest : string) :
  scan_hhx s = Some (v, rest) -> byte_ok v.
Proof.
  unfold scan_hhx.
  destruct (scan_sign (skip_space s)) as [neg s'].
  destruct (scan_digits xdigit_val 16 (skip_0x s') 0 false) as [[w seen] r].
  destruct seen; [|discriminate]. intros [= <- _].
  unfold byte_ok, u8. apply Z.mod_pos_bound. lia.
Qed.

Lemma sscanf_mac_shape (k i : nat) (s : string) (out : list Z) :
  length (snd (sscanf_mac k i s out)) = length out /\
  (Forall byte_ok out -> Forall byte_ok (snd (sscanf_mac k i s out))).
Proof.
  revert i s out. induction k as [|k IH]; intros i s out; [split; auto|].
  cbn [sscanf_mac].
  destruct (scan_hhx s) as [[v rest]|] eqn:Hs; [|split; auto].
  pose proof (scan_hhx_byte _ _ _ Hs) as Hv.
  assert (Hins : length (<[i:=v]> out) = length out /\
                 (Forall byte_ok out -> Forall byte_ok (<[i:=v]> out))).
  { split; [apply length_insert|]. intros H. apply Forall_insert; assumption. }
  destruct k as [|k']; [exact Hins|].
  destruct rest as [|c r]; [exact Hins|].
  destruct (code c =? 58); [|exact Hins].
  specialize (IH (S i) r (<[i:=v]> out)).
  destruct (sscanf_mac (S k') (S i) r (<[i:=v]> out)) as [n out'].
  cbn [snd] in *. destruct IH as [IH1 IH2]. destruct Hins as [H1 H2].
  split; [congruence|auto].
Qed.

Lemma parseMac_shape (s : string) (out : list Z) :
  length (snd (parseMac s out)) = length out /\
  (Forall byte_ok out -> Forall byte_ok (snd (parseMac s out))).
Proof.
  unfold parseMac. pose proof (sscanf_mac_shape 6 0 s out) as H.
  destruct (sscanf_mac 6 0 s out) as [n out']. exact H.
Qed.

Lemma c_str_bytes (s : string) : Forall byte_ok (c_str s).
Proof.
  induction s as [|c r IH]; cbn [c_str].
  - repeat constructor; unfold byte_ok; lia.
  - destruct (code c =? 0).
    + repeat constructor; unfold byte_ok; lia.
    + constructor; [apply code_range|exact IH].
Qed.

Lemma c_str_length (s : string) :
  (1 <= length (c_str s) <= S (String.length s))%nat.
Proof.
  induction s as [|c r IH]; cbn [c_str String.length]; [simpl; lia|].
  destruct (code c =? 0); simpl; lia.
Qed.

Lemma c_str_terminated (s : string) : last (c_str s) = Some 0.
Proof.
  induction s as [|c r IH]; cbn [c_str]; [reflexivity|].
  destruct (code c =? 0); [reflexivity|].
  destruct (c_str r) as [|x l] eqn:Hr; [discriminate IH|].
  exact IH.
Qed.

Lemma strcpy_length (dst src : list Z) : length (strcpy dst src) = length dst.
Proof.
  unfold strcpy. rewrite length_take, length_app, length_drop. lia.
Qed.

Lemma strcpy_bytes (dst src : list Z) :
  Forall byte_ok dst -> Forall byte_ok src -> Forall byte_ok (strcpy dst src).
Proof.
  intros Hd Hs. unfold strcpy. apply Forall_take, Forall_app.
  split; [exact Hs|apply Forall_drop, Hd].
Qed.

(** A copy that fits leaves a terminator in the array. *)
Lemma strcpy_terminated (dst : list Z) (s : string) :
  (String.length s < length dst)%nat -> terminated (strcpy dst (c_str s)).
Proof.
  intros Hfit. unfold terminated, strcpy.
  pose proof (c_str_length s) as Hlen.
  pose proof (c_str_terminated s) as Hlast.
  rewrite take_ge by (rewrite length_app, length_drop; lia).
  apply last_Some in Hlast as [l' Heq].
  apply in_or_app. left. rewrite Heq. apply in_or_app. right. left. reflexivity.
Qed.

(** The record after [handleSave] is reached from the record before by
    the assignments of the handler, each under its own check. *)
Lemma handleSave_invariant (P : Config -> Prop) (env : Env) (req : Args) (d : Device) :
  (forall c, P c ->
     P (set_parentMac (snd (parseMac (arg req "pmac") (parentMac c))) c)) ->
  (forall c m s, 0 <= m <= 59 -> 0 <= s <= 59 -> P c ->
     P (set_refreshRateMs (minSecToMs m s) c)) ->
  (forall c b, 0 < b <= 1000 -> P c -> P (set_barrelHeightCm (F32.of_Z b) c)) ->
  (forall c l, P c -> P (set_ledEnabled l c)) ->
  (forall c s, (0 < String.length s <= 15)%nat -> P c ->
     P (set_ssidPrefix (strcpy (ssidPrefix c) (c_str s)) c)) ->
  (forall c s, (8 <= String.length s <= 31)%nat -> P c ->
     P (set_wifiPassword (strcpy (wifiPassword c) (c_str s)) c)) ->
  P (config d) -> P (config (snd (handleSave env req d))).
Proof.
  intros Hmac Href Hbar Hled Hssid Hpw H0.
  unfold handleSave.
  destruct (negb (hasArg req "pmac") || _ || _ || _); [exact H0|].
  specialize (Hmac _ H0).
  destruct (parseMac _ _) as [ok mac']. cbn [snd] in Hmac.
  destruct_device d. cbn [config set_config] in *.
  destruct ok; cbn [negb]; [|exact Hmac].
  set (minutes := u8 (toInt (arg req "minutes"))).
  set (seconds := u8 (toInt (arg req "seconds"))).
  assert (Hm : 0 <= minutes < 256) by (apply Z.mod_pos_bound; lia).
  assert (Hs : 0 <= seconds < 256) by (apply Z.mod_pos_bound; lia).
  destruct ((59 <? minutes) || (59 <? seconds)) eqn:Ht; [exact Hmac|].
  apply orb_false_elim in Ht as [Ht1 Ht2]. apply Z.ltb_ge in Ht1, Ht2.
  pose proof (Href _ minutes seconds ltac:(lia) ltac:(lia) Hmac) as H1.
  set (barrel := toInt (arg req "barrel")).
  destruct ((barrel <=? 0) || (1000 <? barrel)) eqn:Hb; [exact H1|].
  apply orb_false_elim in Hb as [Hb1 Hb2].
  apply Z.leb_gt in Hb1. apply Z.ltb_ge in Hb2.
  pose proof (Hled _ (hasArg req "led") (Hbar _ barrel ltac:(lia) H1)) as H2.
  cbv zeta. cbn [config set_config] in *.
  set (ssidStr := arg req "ssid").
  set (passwordStr := arg req "password").
  match goal with
  | |- context [if (?a && ?b) then set_config ?c ?dd else ?dd'] =>
      assert (H3 : P (config (if (a && b) then set_config c dd else dd')))
  end.
  { destruct ((0 <? Z.of_nat (String.length ssidStr))
              && (Z.of_nat (String.length ssidStr) <=? 15)) eqn:Hfit;
      cbn [config set_config]; [|exact H2].
    apply andb_prop in Hfit as [Hf1 Hf2].
    apply Z.ltb_lt in Hf1. apply Z.leb_le in Hf2.
    apply (Hssid _ ssidStr); [lia|exact H2]. }
  match goal with
  | H : P (config ?dd) |- _ => generalize dependent dd; intros d3 H3
  end.
  destruct ((8 <=? Z.of_nat (String.length passwordStr))
            && (Z.of_nat (String.length passwordStr) <=? 31)) eqn:Hfit.
  - cbn [negb andb].
    apply andb_prop in Hfit as [Hf1 Hf2].
    apply Z.leb_le in Hf1, Hf2.
    pose proof (Hpw _ passwordStr ltac:(lia) H3) as H4.
    destruct (saveConfig _ _ _) as [saved fl'].
    destruct d3. destruct saved; exact H4.
  - cbn [negb andb].
    destruct (0 <? _); [exact H3|].
    destruct (saveConfig _ _ _) as [saved fl'].
    destruct d3. destruct saved; exact H3.
Qed.

(** The heights a save accepts are floats above zero. *)
Lemma barrel_float (b : Z) :
  0 < b <= 1000 ->
  F32.valid (F32.of_Z b) = true /\ is_pos_finite (F32.of_Z b) = true.
Proof.
  intros Hb.
  assert (Hall : forallb (fun n => F32.valid (F32.of_Z (Z.of_nat n))
                                   && is_pos_finite (F32.of_Z (Z.of_nat n)))
                         (seq 1 1000) = true) by (vm_compute; reflexivity).
  rewrite forallb_forall in Hall.
  specialize (Hall (Z.to_nat b)).
  rewrite Z2Nat.id in Hall by lia.
  apply andb_prop, Hall, in_seq. lia.
Qed.

Lemma wf_set_parentMac (c : Config) (s : string) :
  config_wf c -> config_wf (set_parentMac (snd (parseMac s (parentMac c))) c).
Proof.
  intros [A1 A2 A3 A4 A5 A6 A7 A8].
  destruct (parseMac_shape s (parentMac c)) as [L B].
  destruct c as [mac r bh led ssid pw]; constructor; simpl_cfg; auto. congruence.
Qed.

Lemma wf_set_refreshRateMs (c : Config) (m s : Z) :
  config_wf c -> config_wf (set_refreshRateMs (minSecToMs m s) c).
Proof.
  intros [A1 A2 A3 A4 A5 A6 A7 A8].
  destruct c as [mac r bh led ssid pw]; constructor; simpl_cfg; auto.
  unfold minSecToMs, u32. apply Z.mod_pos_bound. lia.
Qed.

Lemma wf_set_barrelHeightCm (c : Config) (b : Z) :
  0 < b <= 1000 -> config_wf c -> config_wf (set_barrelHeightCm (F32.of_Z b) c).
Proof.
  intros Hb [A1 A2 A3 A4 A5 A6 A7 A8].
  destruct c as [mac r bh led ssid pw]; constructor; simpl_cfg; auto.
  apply barrel_float, Hb.
Qed.

Lemma wf_set_ledEnabled (c : Config) (l : bool) :
  config_wf c -> config_wf (set_ledEnabled l c).
Proof.
  intros [A1 A2 A3 A4 A5 A6 A7 A8].
  destruct c as [mac r bh led ssid pw]; constructor; simpl_cfg; auto.
Qed.

Lemma wf_set_ssidPrefix (c : Config) (s : string) :
  config_wf c -> config_wf (set_ssidPrefix (strcpy (ssidPrefix c) (c_str s)) c).
Proof.
  intros [A1 A2 A3 A4 A5 A6 A7 A8].
  destruct c as [mac r bh led ssid pw]; constructor; simpl_cfg; auto.
  - rewrite strcpy_length. assumption.
  - apply strcpy_bytes; [assumption|apply c_str_bytes].
Qed.

Lemma wf_set_wifiPassword (c : Config) (s : string) :
  config_wf c -> config_wf (set_wifiPassword (strcpy (wifiPassword c) (c_str s)) c).
Proof.
  intros [A1 A2 A3 A4 A5 A6 A7 A8].
  destruct c as [mac r bh led ssid pw]; constructor; simpl_cfg; auto.
  - rewrite strcpy_length. assumption.
  - apply strcpy_bytes; [assumption|apply c_str_bytes].
Qed.

(** X2. [handleSave] keeps the configuration record well formed, whatever
    the request and whether it is accepted or rejected: the MAC stays six
    bytes, the interval a 32-bit value, the height a float, the two
    character arrays keep their sizes and hold bytes. *)
Theorem handleSave_keeps_config_wf (env : Env) (req : Args) (d : Device) :
  config_wf (config d) -> config_wf (config (snd (handleSave env req d))).
Proof.
  apply handleSave_invariant.
  - intros c. apply wf_set_parentMac.
  - intros c m s _ _. apply wf_set_refreshRateMs.
  - intros c b. apply wf_set_barrelHeightCm.
  - intros c l. apply wf_set_ledEnabled.
  - intros c s _. apply wf_set_ssidPrefix.
  - intros c s _. apply wf_set_wifiPassword.
Qed.

Lemma handleSave_keeps_config_wf_witness :
  config_wf (config (snd (handleSave (quiet 5000) bad_barrel_request tank_device))).
Proof.
  apply handleSave_keeps_config_wf. apply config_ok_wf. reflexivity.
Defined.

(** X3. With both character arrays of the record at their sizes and
    terminated, they are still terminated after any save request: a
    prefix or passphrase is only copied when it fits with its
    terminator. *)
Theorem handleSave_keeps_strings_terminated (env : Env) (req : Args) (d : Device) :
  (length (ssidPrefix (config d)) = 16%nat /\ terminated (ssidPrefix (config d)) /\
   length (wifiPassword (config d)) = 32%nat /\ terminated (wifiPassword (config d))) ->
  let c' := config (snd (handleSave env req d)) in
  length (ssidPrefix c') = 16%nat /\ terminated (ssidPrefix c') /\
  length (wifiPassword c') = 32%nat /\ terminated (wifiPassword c').
Proof.
  intros H c'. subst c'. revert H.
  apply (handleSave_invariant
           (fun c => length (ssidPrefix c) = 16%nat /\ terminated (ssidPrefix c) /\
                     length (wifiPassword c) = 32%nat /\ terminated (wifiPassword c))).
  - intros c H. destruct c as [mac r bh led ssid pw]; exact H.
  - intros c m s _ _ H. destruct c as [mac r bh led ssid pw]; exact H.
  - intros c b _ H. destruct c as [mac r bh led ssid pw]; exact H.
  - intros c l H. destruct c as [mac r bh led ssid pw]; exact H.
  - intros c s Hs (A & B & C & D). destruct c as [mac r bh led ssid pw]; simpl_cfg.
    rewrite strcpy_length. repeat split; auto.
    apply strcpy_terminated. lia.
  - intros c s Hs (A & B & C & D). destruct c as [mac r bh led ssid pw]; simpl_cfg.
    rewrite strcpy_length. repeat split; auto.
    apply strcpy_terminated. lia.
Qed.

Lemma handleSave_keeps_strings_terminated_witness :
  let c' := config (snd (handleSave (quiet 5000) zero_interval_request tank_device)) in
  length (ssidPrefix c') = 16%nat /\ terminated (ssidPrefix c') /\
  length (wifiPassword c') = 32%nat /\ terminated (wifiPassword c').
Proof.
  apply (handleSave_keeps_strings_terminated (quiet 5000) zero_interval_request tank_device).
  vm_compute. repeat split; auto 20.
Defined.

(** ** A save that succeeds, and the restart after it *)

(** What a successful [handleSave] did. *)
Lemma handleSave_saved (env : Env) (req : Args) (d : Device) :
  fst (handleSave env req d) = SAVED ->
  let d' := snd (handleSave env req d) in
  restarted d' = true /\
  saveConfig (spi_flash_ok env) (config d') (flash d) = (true, flash d') /\
  0 < toInt (arg req "barrel") <= 1000 /\
  barrelHeightCm (config d') = F32.of_Z (toInt (arg req "barrel")) /\
  parseMac (arg req "pmac") (parentMac (config d)) = (true, parentMac (config d')).
Proof.
  unfold handleSave, SAVED.
  destruct (negb (hasArg req "pmac") || _ || _ || _); [cbn; discriminate|].
  destruct (parseMac _ _) as [ok mac'].
  destruct ok; cbn [negb]; [|cbn; discriminate].
  destruct ((59 <? _) || (59 <? _)); [cbn; discriminate|].
  set (barrel := toInt (arg req "barrel")).
  destruct ((barrel <=? 0) || (1000 <? barrel)) eqn:Hb; [cbn; discriminate|].
  apply orb_false_elim in Hb as [Hb1 Hb2].
  apply Z.leb_gt in Hb1. apply Z.ltb_ge in Hb2.
  cbv zeta.
  match goal with |- context [set_ledEnabled ?b] => generalize b; intros led end.
  match goal with |- context [minSecToMs ?a ?b] => generalize (minSecToMs a b); intros r end.
  match goal with |- context [c_str ?b] => generalize (c_str b); intros ssid end.
  match goal with |- context [(0 <? ?a) && (?b <=? 15)] =>
    generalize ((0 <? a) && (b <=? 15)); intros fits_ssid end.
  match goal with |- context [c_str ?b] => generalize (c_str b); intros pw end.
  match goal with |- context [negb ?f && (0 <? ?a)] =>
    generalize (0 <? a); generalize f; intros fits nonempty end.
  destruct_device d. destruct cfg_ as [mac r0 bh0 led0 ssid0 pw0].
  cbn [config set_config set_parentMac set_refreshRateMs set_barrelHeightCm set_ledEnabled
       parentMac refreshRateMs barrelHeightCm ledEnabled ssidPrefix wifiPassword].
  destruct fits_ssid, fits, nonempty; cbn [negb andb];
    cbn [config set_config set_ssidPrefix set_wifiPassword flash
         parentMac refreshRateMs barrelHeightCm ledEnabled ssidPrefix wifiPassword];
    try (cbn; discriminate);
    destruct (saveConfig _ _ _) as [saved fl'] eqn:Hsave;
    destruct saved; cbn; try discriminate; intros _;
    repeat split; try lia; exact Hsave.
Qed.

(** The record that [loadConfig] finds in a store left by [saveConfig]. *)
Lemma loadConfig_of_saved (ok : bool) (cfg cfg0 : Config) (fl fl' : list Z) :
  config_wf cfg -> config_wf cfg0 -> length fl = 64%nat ->
  saveConfig ok cfg fl = (true, fl') ->
  loadConfig fl' cfg0 = (true, cfg).
Proof.
  intros Hwf Hwf0 Hfl Hsave.
  assert (Hok : fst (saveConfig ok cfg fl) = true) by (rewrite Hsave; reflexivity).
  assert (Hfl' : fl' = snd (saveConfig ok cfg fl)) by (rewrite Hsave; reflexivity).
  rewrite Hfl', (saveConfig_flash ok cfg fl Hok). clear Hok Hsave Hfl'.
  pose proof (bits_of_float_range _ (wf_barrel _ Hwf)) as Hbits.
  pose proof (float_of_bits_of_float _ (wf_barrel _ Hwf)) as Hfloat.
  destruct Hwf as [Hm Hmb Hr _ Hs Hsb Hp Hpb].
  destruct Hwf0 as [Hm0 _ _ _ Hs0 _ Hp0 _].
  destruct cfg as [mac r bh led ssid pw].
  destruct cfg0 as [mac0 r0 bh0 led0 ssid0 pw0].
  cbn [parentMac refreshRateMs barrelHeightCm ledEnabled ssidPrefix wifiPassword] in *.
  explode mac Hm. explode ssid Hs. explode pw Hp.
  explode mac0 Hm0. explode ssid0 Hs0. explode pw0 Hp0.
  explode fl Hfl.
  destruct led.
  all: unfold loadConfig; cbv zeta.
  all: rewrite fold_parentMac, fold_refreshRateMs, fold_ssidPrefix, fold_wifiPassword.
  all: change (u8 170) with 170; change (u8 1) with 1; change (u8 0) with 0.
  all: cbv -[Z.shiftl Z.shiftr Z.land Z.lor u8 u32 bits_of_float float_of_bits].
  all: rewrite (le32_roundtrip r Hr), (le32_roundtrip _ Hbits), Hfloat.
  all: repeat match goal with
         | H : Forall byte_ok (_ :: _) |- _ =>
             apply Forall_cons in H; destruct H as [? H]
         end.
  all: rewrite !u8_byte by assumption.
  all: reflexivity.
Qed.

(** The store a successful [handleSave] leaves loads as the record the
    handler built. *)
Lemma loadConfig_after_handleSave (env : Env) (req : Args) (d : Device) :
  config_wf (config d) -> length (flash d) = 64%nat ->
  fst (handleSave env req d) = SAVED ->
  loadConfig (flash (snd (handleSave env req d))) default_config =
  (true, config (snd (handleSave env req d))).
Proof.
  intros Hwf Hfl Hsaved.
  assert (Hwf' : config_wf (config (snd (handleSave env req d)))).
  { revert Hwf. apply handleSave_invariant.
    - intros c. apply wf_set_parentMac.
    - intros c m s _ _. apply wf_set_refreshRateMs.
    - intros c b. apply wf_set_barrelHeightCm.
    - intros c l. apply wf_set_ledEnabled.
    - intros c s _. apply wf_set_ssidPrefix.
    - intros c s _. apply wf_set_wifiPassword. }
  destruct (handleSave_saved env req d Hsaved) as (_ & Hsave & _).
  apply (loadConfig_of_saved _ _ default_config _ _ Hwf'
           (config_ok_wf default_config eq_refl) Hfl Hsave).
Qed.

(** X4. A configuration that [handleSave] accepted survives the restart:
    the node that boots from the store the handler left runs with
    exactly the record the handler had built, for every request and
    every boot environment. *)
Theorem setup_after_handleSave (env env' : Env) (req : Args) (d : Device) :
  config_wf (config d) -> length (flash d) = 64%nat ->
  fst (handleSave env req d) = SAVED ->
  config (setup env' (flash (snd (handleSave env req d)))) =
  config (snd (handleSave env req d)).
Proof.
  intros Hwf Hfl Hsaved. unfold setup. cbn [config].
  rewrite (loadConfig_after_handleSave env req d Hwf Hfl Hsaved).
  reflexivity.
Qed.

Lemma setup_after_handleSave_witness :
  config (setup (quiet 1300)
            (flash (snd (handleSave (quiet 5000) zero_interval_request tank_device)))) =
  config (snd (handleSave (quiet 5000) zero_interval_request tank_device)).
Proof.
  apply setup_after_handleSave.
  - apply config_ok_wf. reflexivity.
  - reflexivity.
  - reflexivity.
Defined.

(** X5. After a successful save the barrel height of the record is the
    float of an integer between 1 and 1000: finite and above zero, which
    is what [calculateWaterLevel] divides by. *)
Theorem handleSave_saved_height (env : Env) (req : Args) (d : Device) :
  fst (handleSave env req d) = SAVED ->
  let h := barrelHeightCm (config (snd (handleSave env req d))) in
  h = F32.of_Z (toInt (arg req "barrel")) /\
  0 < toInt (arg req "barrel") <= 1000 /\
  is_pos_finite h = true /\ F32.valid h = true.
Proof.
  intros Hsaved h. subst h.
  destruct (handleSave_saved env req d Hsaved) as (_ & _ & Hb & -> & _).
  destruct (barrel_float _ Hb) as [Hv Hp]. auto.
Qed.

Lemma handleSave_saved_height_witness :
  let h := barrelHeightCm
             (config (snd (handleSave (quiet 5000) zero_interval_request tank_device))) in
  h = F32.of_Z (toInt (arg zero_interval_request "barrel")) /\
  0 < toInt (arg zero_interval_request "barrel") <= 1000 /\
  is_pos_finite h = true /\ F32.valid h = true.
Proof.
  apply (handleSave_saved_height (quiet 5000) zero_interval_request tank_device).
  reflexivity.
Defined.

(** ** Reset from the web page *)

Lemma initEspNow_default (env : Env) : initEspNow env default_config = false.
Proof.
  unfold initEspNow. destruct (negb (esp_now_init env =? 0)); reflexivity.
Qed.

(** What [handleReset] writes, field by field. *)
Lemma handleReset_fields (env : Env) (d : Device) :
  let d' := snd (handleReset env d) in
  config d' =
    mkConfig [255; 255; 255; 255; 255; 255] 5000 (to_float (F64.of_Z 50)) true
      (strcpy (ssidPrefix (config d)) (c_str "WATER_SENSOR_"))
      (strcpy (wifiPassword (config d)) (c_str "HardPassword1234")) /\
  flash d' = clearConfig (spi_flash_ok env) (flash d) /\
  restarted d' = restarted d /\
  espNowInitialized d' = espNowInitialized d.
Proof.
  destruct_device d. destruct cfg_ as [mac r bh led ssid pw]. repeat split.
Qed.

(** X6. [handleReset] puts the defaults in the running record: the peer
    MAC, the interval, the height and the LED flag are the defaults, and
    the prefix and the passphrase read as the default strings. The two
    strings are copied in, so the bytes of the arrays after the new
    terminators are the old ones and the record need not be equal to
    the default record. The handler does not restart and leaves the
    state of the link alone. When the erase is committed, the next boot
    runs with the default record and with the link disabled, whatever
    the environment. *)
Theorem handleReset_defaults (env env' : Env) (d : Device) :
  config_wf (config d) ->
  spi_flash_ok env = true ->
  let d' := snd (handleReset env d) in
  let c' := config d' in
  parentMac c' = parentMac default_config /\
  refreshRateMs c' = refreshRateMs default_config /\
  barrelHeightCm c' = barrelHeightCm default_config /\
  ledEnabled c' = ledEnabled default_config /\
  c_string (ssidPrefix c') = c_string (ssidPrefix default_config) /\
  c_string (wifiPassword c') = c_string (wifiPassword default_config) /\
  drop 14 (ssidPrefix c') = drop 14 (ssidPrefix (config d)) /\
  drop 17 (wifiPassword c') = drop 17 (wifiPassword (config d)) /\
  config_wf c' /\
  restarted d' = restarted d /\
  espNowInitialized d' = espNowInitialized d /\
  config (setup env' (flash d')) = default_config /\
  espNowInitialized (setup env' (flash d')) = false.
Proof.
  intros Hwf Hok d' c'. subst c' d'.
  destruct (handleReset_fields env d) as (-> & -> & -> & ->).
  rewrite Hok. unfold setup. rewrite loadConfig_cleared.
  cbn [snd config espNowInitialized]. rewrite initEspNow_default.
  destruct Hwf as [_ _ _ _ Hs Hsb Hp Hpb].
  destruct (config d) as [mac r bh led ssid pw].
  cbn [ssidPrefix wifiPassword parentMac refreshRateMs barrelHeightCm ledEnabled] in *.
  explode ssid Hs. explode pw Hp.
  repeat match goal with
         | H : Forall byte_ok (_ :: _) |- _ =>
             apply Forall_cons in H; destruct H as [? H]
         end.
  repeat split; try reflexivity; cbn [parentMac refreshRateMs barrelHeightCm
    ledEnabled ssidPrefix wifiPassword].
  - apply forallb_is_byte. reflexivity.
  - lia.
  - cbv -[byte_ok].
    repeat (apply Forall_cons_2; [first [assumption|unfold byte_ok; lia]|]).
    apply Forall_nil_2.
  - cbv -[byte_ok].
    repeat (apply Forall_cons_2; [first [assumption|unfold byte_ok; lia]|]).
    apply Forall_nil_2.
Qed.

Lemma handleReset_defaults_witness :
  let d' := snd (handleReset (quiet 5000) tank_device) in
  let c' := config d' in
  parentMac c' = parentMac default_config /\
  refreshRateMs c' = refreshRateMs default_config /\
  barrelHeightCm c' = barrelHeightCm default_config /\
  ledEnabled c' = ledEnabled default_config /\
  c_string (ssidPrefix c') = c_string (ssidPrefix default_config) /\
  c_string (wifiPassword c') = c_string (wifiPassword default_config) /\
  drop 14 (ssidPrefix c') = drop 14 (ssidPrefix (config tank_device)) /\
  drop 17 (wifiPassword c') = drop 17 (wifiPassword (config tank_device)) /\
  config_wf c' /\
  restarted d' = restarted tank_device /\
  espNowInitialized d' = espNowInitialized tank_device /\
  config (setup (quiet 1300) (flash d')) = default_config /\
  espNowInitialized (setup (quiet 1300) (flash d')) = false.
Proof.
  apply (handleReset_defaults (quiet 5000) (quiet 1300) tank_device).
  - apply config_ok_wf. reflexivity.
  - reflexivity.
Defined.

(** A reset over a 15-character prefix: the array reads as the default
    prefix, its last letter is still there after the terminator, and the
    record is not the default record. *)
Lemma handleReset_keeps_old_tail :
  let old := set_ssidPrefix (char_array 16 "ABCDEFGHIJKLMNO") tank_config in
  let d' := snd (handleReset (quiet 5000) (set_config old tank_device)) in
  ssidPrefix (config d') =
    [87; 65; 84; 69; 82; 95; 83; 69; 78; 83; 79; 82; 95; 0; 79; 0] /\
  ssidPrefix default_config =
    [87; 65; 84; 69; 82; 95; 83; 69; 78; 83; 79; 82; 95; 0; 0; 0] /\
  config d' <> default_config.
Proof.
  vm_compute. repeat split; discriminate.
Qed.

(** ** Loading from any store *)

Lemma digits2_pos_le (m : positive) (k : Z) :
  0 <= k -> Zpos m < 2 ^ k -> Zpos (digits2_pos m) <= k.
Proof.
  intros Hk Hm. pose proof (digits2_pos_bounds m) as [Hlo _].
  assert (H : 2 ^ (Zpos (digits2_pos m) - 1) < 2 ^ k) by lia.
  apply Z.pow_lt_mono_r_iff in H; lia.
Qed.

Lemma digits2_pos_ge (m : positive) (k : Z) :
  0 <= k -> 2 ^ k <= Zpos m -> k < Zpos (digits2_pos m).
Proof.
  intros Hk Hm. pose proof (digits2_pos_bounds m) as [_ Hhi].
  assert (H : 2 ^ k < 2 ^ Zpos (digits2_pos m)) by lia.
  apply Z.pow_lt_mono_r_iff in H; lia.
Qed.

(** Every 32-bit pattern is the representation of a [float]. *)
Lemma float_of_bits_valid (b : Z) : F32.valid (float_of_bits b) = true.
Proof.
  unfold float_of_bits.
  set (ex := (b / 2 ^ 23) mod 256).
  set (mant := b mod 2 ^ 23).
  assert (Hex : 0 <= ex < 256) by (apply Z.mod_pos_bound; lia).
  assert (Hmant : 0 <= mant < 2 ^ 23) by (apply Z.mod_pos_bound; lia).
  cbv zeta.
  destruct (Z.eqb_spec ex 0) as [He0|He0].
  - destruct (Z.eqb_spec mant 0) as [Hm0|Hm0]; [reflexivity|].
    unfold F32.valid, valid_binary, bounded, canonical_mantissa, fexp, emin,
      F32.prec, F32.emax.
    pose proof (digits2_pos_le (Z.to_pos mant) 23 ltac:(lia)
                  ltac:(rewrite Z2Pos.id by lia; lia)) as Hd.
    apply andb_true_intro. split; [apply Z.eqb_eq; lia|reflexivity].
  - destruct (Z.eqb_spec ex 255) as [He1|He1].
    + destruct (mant =? 0); reflexivity.
    + unfold F32.valid, valid_binary, bounded, canonical_mantissa, fexp, emin,
        F32.prec, F32.emax.
      pose proof (digits2_pos_le (Z.to_pos (mant + 2 ^ 23)) 24 ltac:(lia)
                    ltac:(rewrite Z2Pos.id by lia; lia)) as Hd1.
      pose proof (digits2_pos_ge (Z.to_pos (mant + 2 ^ 23)) 23 ltac:(lia)
                    ltac:(rewrite Z2Pos.id by lia; lia)) as Hd2.
      apply andb_true_intro. split; [apply Z.eqb_eq; lia|apply Z.leb_le; lia].
Qed.

Lemma lor_u32_range (a x : Z) :
  0 <= a < 2 ^ 32 -> 0 <= Z.lor a (u32 x) < 2 ^ 32.
Proof.
  intros Ha.
  assert (Hx : 0 <= u32 x < 2 ^ 32) by (apply Z.mod_pos_bound; lia).
  split; [apply Z.lor_nonneg; lia|].
  destruct (Z.eq_dec (Z.lor a (u32 x)) 0) as [->|Hnz]; [lia|].
  apply Z.log2_lt_pow2; [pose proof (proj2 (Z.lor_nonneg a (u32 x))); lia|].
  rewrite Z.log2_lor by lia.
  destruct (Z.eq_dec a 0) as [->|Han], (Z.eq_dec (u32 x) 0) as [Hx0|Hxn];
    try rewrite Hx0; try (cbn; lia).
  - simpl Z.log2 at 1. rewrite Z.max_r by apply Z.log2_nonneg.
    apply Z.log2_lt_pow2; lia.
  - simpl (Z.log2 0). rewrite Z.max_l by apply Z.log2_nonneg.
    apply Z.log2_lt_pow2; lia.
  - apply Z.max_lub_lt; apply Z.log2_lt_pow2; lia.
Qed.

Lemma for_upto_lor_range (n : nat) (g : Z -> Z) :
  0 <= for_upto n (fun i b => Z.lor b (u32 (g i))) 0 < 2 ^ 32.
Proof.
  induction n as [|n IH]; [cbn; lia|].
  rewrite for_upto_S. apply lor_u32_range, IH.
Qed.

Lemma for_upto_insert_shape (n : nat) (f : Z -> Z) (l : list Z) :
  (forall i, byte_ok (f i)) ->
  length (for_upto n (fun i l => <[Z.to_nat i := f i]> l) l) = length l /\
  (Forall byte_ok l ->
   Forall byte_ok (for_upto n (fun i l => <[Z.to_nat i := f i]> l) l)).
Proof.
  intros Hf. induction n as [|n [IH1 IH2]]; [split; auto|].
  rewrite for_upto_S. split.
  - rewrite length_insert. exact IH1.
  - intros H. apply Forall_insert; [apply IH2, H|apply Hf].
Qed.

Lemma EEPROM_read_byte (fl : list Z) (a : Z) :
  Forall byte_ok fl -> byte_ok (EEPROM_read a (EEPROM_begin fl)).
Proof.
  intros H. unfold EEPROM_read, EEPROM_begin. cbn [_data].
  destruct (in_range a); [|unfold byte_ok; lia].
  destruct (fl !! Z.to_nat a) as [x|] eqn:Hl; cbn; [|unfold byte_ok; lia].
  rewrite Forall_lookup in H. exact (H _ _ Hl).
Qed.

(** X7. [loadConfig] returns a well-formed record from any store of
    bytes, marker or not and whatever the other bytes are: the arrays
    keep their sizes and hold bytes, the interval is a 32-bit value and
    the four height bytes are taken as the float they represent. *)
Theorem loadConfig_keeps_config_wf (fl : list Z) (cfg : Config) :
  Forall byte_ok fl -> config_wf cfg -> config_wf (snd (loadConfig fl cfg)).
Proof.
  intros Hfl Hwf. unfold loadConfig.
  destruct (negb (EEPROM_read 63 (EEPROM_begin fl) =? 170)); [exact Hwf|].
  cbv zeta.
  rewrite fold_parentMac, fold_refreshRateMs, fold_ssidPrefix, fold_wifiPassword.
  destruct Hwf as [A1 A2 A3 A4 A5 A6 A7 A8].
  destruct cfg as [mac r bh led ssid pw]. simpl_cfg. cbn [snd]. simpl_cfg.
  pose proof (fun f => for_upto_insert_shape 6 f mac) as Hmac.
  pose proof (fun f => for_upto_insert_shape 16 f ssid) as Hssid.
  pose proof (fun f => for_upto_insert_shape 32 f pw) as Hpw.
  constructor; simpl_cfg.
  - rewrite (proj1 (Hmac _ (fun i => EEPROM_read_byte fl _ Hfl))). exact A1.
  - apply (Hmac _ (fun i => EEPROM_read_byte fl _ Hfl)), A2.
  - apply (for_upto_lor_range 4
             (fun i => Z.shiftl (EEPROM_read (6 + i) (EEPROM_begin fl)) (i * 8))).
  - apply float_of_bits_valid.
  - rewrite (proj1 (Hssid _ (fun i => EEPROM_read_byte fl _ Hfl))). exact A5.
  - apply (Hssid _ (fun i => EEPROM_read_byte fl _ Hfl)), A6.
  - rewrite (proj1 (Hpw _ (fun i => EEPROM_read_byte fl _ Hfl))). exact A7.
  - apply (Hpw _ (fun i => EEPROM_read_byte fl _ Hfl)), A8.
Qed.

Lemma loadConfig_keeps_config_wf_witness :
  config_wf (snd (loadConfig (replicate 63 7 ++ [170]) default_config)).
Proof.
  apply loadConfig_keeps_config_wf.
  - apply forallb_is_byte. reflexivity.
  - apply config_ok_wf. reflexivity.
Defined.

(** ** What [handleSave] leaves alone *)

Lemma handleSave_touches (env : Env) (req : Args) (d : Device) :
  exists cfg fl rs,
    snd (handleSave env req d) =
    mkDevice cfg (currentDistance d) (currentWaterLevel d) (lastSensorRead d)
      (espNowInitialized d) (espNowSendSuccess d) (lastEspNowSend d) (lastEspNowRetry d)
      (payload d) (t0 d) (pressed d) fl (radio d) (serial d) rs.
Proof.
  pose proof (handleSave_outcome env req d) as Hout.
  destruct (handleSave env req d) as [reply d']. cbn [snd].
  destruct_device d.
  inversion Hout; subst; simpl_dev; eexists _, _, _; reflexivity.
Qed.

(** ** A disabled link *)

Lemma link_off_send (env : Env) (d : Device) :
  espNowInitialized d = false ->
  espNowInitialized (sendEspNowData env d) = false /\
  radio (sendEspNowData env d) = radio d.
Proof.
  intros H. unfold sendEspNowData. rewrite H. destruct_device d. auto.
Qed.

Lemma link_off_loop (env : Env) (d : Device) :
  espNowInitialized d = false ->
  espNowInitialized (loop env d) = false /\ radio (loop env d) = radio d.
Proof.
  intros H. unfold loop.
  assert (H1 : espNowInitialized (handleClient env d) = false /\
               radio (handleClient env d) = radio d).
  { unfold handleClient. destruct (request env) as [[args| |]|]; [| | |auto].
    - destruct (handleSave_touches env args d) as (cfg & fl & rs & ->). auto.
    - unfold handleReadSensor. destruct_device d. simpl_dev. subst. auto.
    - destruct_device d. auto. }
  destruct H1 as [H1 R1].
  destruct (restarted (handleClient env d)); [auto|].
  assert (H2 : espNowInitialized (updateSensorReadings env (handleClient env d)) = false /\
               radio (updateSensorReadings env (handleClient env d)) = radio d).
  { rewrite <- R1. generalize dependent (handleClient env d). intros d1 H1 _.
    unfold updateSensorReadings. destruct (_ <=? _); [|auto].
    destruct_device d1. simpl_dev. subst. auto. }
  destruct H2 as [H2 R2].
  set (d2 := updateSensorReadings env (handleClient env d)) in *.
  assert (H3 : espNowRetry env d2 = d2).
  { unfold espNowRetry. rewrite H2. reflexivity. }
  rewrite H3. rewrite <- R2.
  unfold checkButton.
  destruct (button_low env).
  - destruct (t0 d2 =? 0); [destruct_device d2; auto|].
    destruct (BTN_HOLD_MS <=? _); [destruct_device d2; auto|auto].
  - destruct (pressed d2 && _); [destruct_device d2; auto|auto].
Qed.

Lemma link_off_step (ev : Event) (d : Device) :
  espNowInitialized d = false ->
  espNowInitialized (step d ev) = false /\ radio (step d ev) = radio d.
Proof.
  intros H. unfold step. destruct (restarted d); [auto|].
  destruct ev as [env|status]; [apply link_off_loop, H|].
  destruct_device d. auto.
Qed.

(** X8. A node whose link is not initialised never hands a datagram to
    the carrier and never brings the link up by itself: over any run of
    loop iterations, requests and completion signals the list of
    datagrams stays what it was. *)
Theorem disabled_link_never_sends (evs : list Event) (d : Device) :
  espNowInitialized d = false ->
  espNowInitialized (run evs d) = false /\ radio (run evs d) = radio d.
Proof.
  revert d. induction evs as [|ev evs IH]; intros d H; [auto|].
  change (run (ev :: evs) d) with (run evs (step d ev)).
  destruct (link_off_step ev d H) as [Hs Rs].
  rewrite <- Rs. apply (IH _ Hs).
Qed.

Lemma disabled_link_never_sends_witness :
  let d := setup (quiet 1300) blank_flash in
  let evs := [Tick (refusing 7000); SendDone 1; Tick (holding 9000)] in
  espNowInitialized (run evs d) = false /\ radio (run evs d) = radio d.
Proof.
  apply (disabled_link_never_sends
           [Tick (refusing 7000); SendDone 1; Tick (holding 9000)]
           (setup (quiet 1300) blank_flash)).
  reflexivity.
Defined.

(** X9. A node that boots from a store without the marker byte runs
    with the default record, whatever else the store holds, and with the
    link disabled; nothing it does afterwards sends a datagram. *)
Theorem setup_without_marker (env : Env) (fl : list Z) (evs : list Event) :
  EEPROM_read 63 (EEPROM_begin fl) <> 170 ->
  config (setup env fl) = default_config /\
  espNowInitialized (setup env fl) = false /\
  radio (run evs (setup env fl)) = [].
Proof.
  intros Hm.
  assert (Hl : loadConfig fl default_config = (false, default_config)).
  { unfold loadConfig. destruct (Z.eqb_spec (EEPROM_read 63 (EEPROM_begin fl)) 170);
      [contradiction|reflexivity]. }
  assert (Hc : config (setup env fl) = default_config).
  { unfold setup. rewrite Hl. reflexivity. }
  assert (Hi : espNowInitialized (setup env fl) = false).
  { unfold setup. rewrite Hl. cbn [snd espNowInitialized]. apply initEspNow_default. }
  split; [exact Hc|]. split; [exact Hi|].
  assert (Hrun : forall l d, espNowInitialized d = false -> radio (run l d) = radio d).
  { induction l as [|ev l IH]; intros d Hd; [reflexivity|].
    change (run (ev :: l) d) with (run l (step d ev)).
    destruct (link_off_step ev d Hd) as [Hs Rs].
    rewrite <- Rs. apply (IH _ Hs). }
  rewrite (Hrun evs _ Hi). reflexivity.
Qed.

Lemma setup_without_marker_witness :
  config (setup (quiet 1300) blank_flash) = default_config /\
  espNowInitialized (setup (quiet 1300) blank_flash) = false /\
  radio (run [Tick (quiet 7000)] (setup (quiet 1300) blank_flash)) = [].
Proof.
  apply setup_without_marker. vm_compute. discriminate.
Defined.

(** ** The fill percentage of every sample *)

Lemma measureDistanceCM_not_nan (duration : Z) :
  is_nan (measureDistanceCM duration) = false.
Proof.
  unfold measureDistanceCM. destruct (duration =? 0); [reflexivity|].
  rewrite to_float_nan.
  change (F64.of_Z 2) with (S754_finite false 4503599627370496 (-51)).
  apply SFdiv_by_finite.
  change d0_034 with (S754_finite false 4899916394579100 (-57)).
  apply SFmul_by_finite. apply binary_normalize_not_nan.
Qed.

Lemma calculateWaterLevel_percent (d h : spec_float) :
  is_nan d = false -> is_pos_finite h = true ->
  percent (calculateWaterLevel d h) = true.
Proof.
  intros Hd Hh. unfold percent, calculateWaterLevel.
  destruct (F64.ltb (to_double d) d20); [reflexivity|].
  fold (fill_raw d h).
  pose proof (fill_clamp_bounds _ (fill_raw_not_nan d h Hd Hh)) as [Hlo Hhi].
  unfold fill_clamp in Hlo, Hhi.
  destruct (F64.ltb (to_double (fill_raw d h)) d0); [reflexivity|].
  rewrite Hlo, Hhi. reflexivity.
Qed.

(** X10. Whatever the echo time, a timeout included, and for every
    finite height above zero, the fill percentage computed from the
    measured distance compares at least 0 and at most 100: it is never
    NaN and never out of range. *)
Theorem sample_is_percent (duration : Z) (h : spec_float) :
  is_pos_finite h = true ->
  percent (calculateWaterLevel (measureDistanceCM duration) h) = true.
Proof.
  intros Hh. apply calculateWaterLevel_percent; [|exact Hh].
  apply measureDistanceCM_not_nan.
Qed.

Lemma sample_is_percent_witness :
  percent (calculateWaterLevel (measureDistanceCM 123456789) (F32.of_Z 80)) = true.
Proof. apply sample_is_percent. reflexivity. Defined.

Lemma level_ok_loop (env : Env) (d : Device) : level_ok d -> level_ok (loop env d).
Proof.
  intros [Hh Hp]. unfold loop.
  assert (H1 : level_ok (handleClient env d)).
  { unfold handleClient. destruct (request env) as [[args| |]|]; [| | |split; auto].
    - split.
      + revert Hh. apply (handleSave_invariant
                 (fun c => is_pos_finite (barrelHeightCm c) = true)).
        * intros c H; destruct c; exact H.
        * intros c m s _ _ H; destruct c; exact H.
        * intros c b Hb _. destruct c. simpl_cfg. apply barrel_float, Hb.
        * intros c l H; destruct c; exact H.
        * intros c s _ H; destruct c; exact H.
        * intros c s _ H; destruct c; exact H.
      + destruct (handleSave_touches env args d) as (cfg & fl & rs & ->). exact Hp.
    - unfold handleReadSensor, sendEspNowData. destruct_device d.
      unfold level_ok in *. simpl_dev.
      destruct init_; simpl_dev;
        [destruct (negb (u8 (esp_now_send env) =? 0))|]; simpl_dev;
        (split; [exact Hh|apply calculateWaterLevel_percent;
                         [apply measureDistanceCM_not_nan|exact Hh]]).
    - destruct_device d. unfold level_ok in *. simpl_dev. split; [reflexivity|exact Hp]. }
  destruct (restarted (handleClient env d)); [exact H1|].
  generalize dependent (handleClient env d). clear Hh Hp d. intros d [Hh Hp].
  assert (H2 : level_ok (updateSensorReadings env d)).
  { unfold updateSensorReadings, sendEspNowData. destruct (_ <=? _); [|split; auto].
    destruct_device d. unfold level_ok in *. simpl_dev.
    destruct init_; simpl_dev;
      [destruct (negb (u8 (esp_now_send env) =? 0))|]; simpl_dev;
      (split; [exact Hh|apply calculateWaterLevel_percent;
                         [apply measureDistanceCM_not_nan|exact Hh]]). }
  generalize dependent (updateSensorReadings env d). clear Hh Hp d. intros d [Hh Hp].
  assert (H3 : level_ok (espNowRetry env d)).
  { unfold espNowRetry, sendEspNowData.
    destruct (_ && _ && _); [|split; auto].
    destruct_device d. unfold level_ok in *. simpl_dev.
    destruct init_; simpl_dev;
      [destruct (negb (u8 (esp_now_send env) =? 0))|]; simpl_dev; auto. }
  generalize dependent (espNowRetry env d). clear Hh Hp d. intros d [Hh Hp].
  unfold checkButton.
  destruct (button_low env).
  - destruct (t0 d =? 0); [destruct_device d; split; auto|].
    destruct (BTN_HOLD_MS <=? _); [destruct_device d; split; auto|split; auto].
  - destruct (pressed d && _); [destruct_device d; split; auto|split; auto].
Qed.

Lemma level_ok_step (ev : Event) (d : Device) : level_ok d -> level_ok (step d ev).
Proof.
  intros H. unfold step. destruct (restarted d); [exact H|].
  destruct ev as [env|status]; [apply level_ok_loop, H|].
  destruct_device d. exact H.
Qed.

(** X11. Over any run of a device, the fill percentage it shows stays a
    percentage and the height it divides by stays finite and above zero:
    no tick, forced reading, completion signal, reset or save request,
    accepted or rejected, breaks either. *)
Theorem level_stays_percent (evs : list Event) (d : Device) :
  level_ok d -> level_ok (run evs d).
Proof.
  revert d. induction evs as [|ev evs IH]; intros d H; [exact H|].
  change (run (ev :: evs) d) with (run evs (step d ev)).
  apply IH, level_ok_step, H.
Qed.

Lemma level_stays_percent_witness :
  level_ok (run [Tick (refusing 61300); SendDone 1;
                 Tick (mkEnv 70000 0 0 0 0 false true (Some GET_read))]
                tank_device).
Proof.
  apply level_stays_percent. split; reflexivity.
Defined.

(** ** Distances *)

Lemma binary_round_aux_nonneg (prec emax mx ex : Z) (lx : location) :
  0 <= mx -> is_nonneg (binary_round_aux prec emax false mx ex lx) = true.
Proof.
  intros H. pose proof (binary_round_aux_not_nan prec emax false mx ex lx H) as Hn.
  unfold binary_round_aux in *.
  destruct (shr_fexp prec emax mx ex lx) as [mrs' e'].
  destruct (shr_fexp prec emax _ e' loc_Exact) as [mrs'' e''].
  destruct (shr_m mrs'') as [|p|p]; [reflexivity| |discriminate Hn].
  destruct (e'' <=? emax - prec); reflexivity.
Qed.

Lemma binary_round_nonneg (prec emax : Z) (m : positive) (e : Z) :
  is_nonneg (binary_round prec emax false m e) = true.
Proof.
  unfold binary_round. destruct (shl_align _ _ _) as [mz ez].
  apply binary_round_aux_nonneg. lia.
Qed.

Lemma to_float_nonneg (x : spec_float) : is_nonneg x = true -> is_nonneg (to_float x) = true.
Proof.
  destruct x as [s|s| |[] m e]; simpl; try discriminate; auto.
  intros _. apply binary_round_nonneg.
Qed.

Lemma to_double_nonneg (x : spec_float) : is_nonneg x = true -> is_nonneg (to_double x) = true.
Proof.
  destruct x as [s|s| |[] m e]; simpl; try discriminate; auto.
  intros _. apply binary_round_nonneg.
Qed.

Lemma SFmul_nonneg (prec emax : Z) (x : spec_float) (m : positive) (e : Z) :
  is_nonneg x = true ->
  is_nonneg (SFmul prec emax x (S754_finite false m e)) = true.
Proof.
  destruct x as [s|[]| |[] mx ex]; simpl; try discriminate; auto.
  intros _. apply binary_round_aux_nonneg. lia.
Qed.

Lemma SFdiv_nonneg (prec emax : Z) (x : spec_float) (m : positive) (e : Z) :
  is_nonneg x = true ->
  is_nonneg (SFdiv prec emax x (S754_finite false m e)) = true.
Proof.
  destruct x as [s|[]| |[] mx ex]; simpl; try discriminate; auto.
  intros _.
  pose proof (SFdiv_core_binary_nonneg prec emax mx m ex e) as H.
  destruct (SFdiv_core_binary _ _ _ _ _ _) as [[mz ez] lz]. simpl in H.
  apply binary_round_aux_nonneg, H.
Qed.

Lemma nonneg_compares (x : spec_float) : is_nonneg x = true -> SFleb d0 x = true.
Proof. destruct x as [s|[]| |[] m e]; simpl; try discriminate; reflexivity. Qed.

(** X12. Every echo time above zero gives a distance that is not
    negative, however long the echo, while the timeout value is below
    zero: a reading is never mistaken for the timeout. *)
Theorem measureDistanceCM_of_echo (duration : Z) :
  0 < duration ->
  F64.leb d0 (to_double (measureDistanceCM duration)) = true /\
  F64.ltb (to_double (measureDistanceCM 0)) d0 = true /\
  measureDistanceCM duration <> measureDistanceCM 0.
Proof.
  intros Hd.
  assert (Hn : is_nonneg (measureDistanceCM duration) = true).
  { unfold measureDistanceCM. destruct (Z.eqb_spec duration 0); [lia|].
    apply to_float_nonneg.
    change (F64.of_Z 2) with (S754_finite false 4503599627370496 (-51)).
    apply SFdiv_nonneg.
    change d0_034 with (S754_finite false 4899916394579100 (-57)).
    apply SFmul_nonneg.
    destruct duration as [|p|p]; try lia.
    apply binary_round_nonneg. }
  split; [apply nonneg_compares, to_double_nonneg, Hn|].
  split; [reflexivity|].
  intros Heq. rewrite Heq in Hn. discriminate Hn.
Qed.

Lemma measureDistanceCM_of_echo_witness :
  F64.leb d0 (to_double (measureDistanceCM 1500)) = true /\
  F64.ltb (to_double (measureDistanceCM 0)) d0 = true /\
  measureDistanceCM 1500 <> measureDistanceCM 0.
Proof. apply measureDistanceCM_of_echo. lia. Defined.

(** ** Intervals as minutes and seconds *)

(** X13. For an interval under one hour, [msToMinSec] gives minutes and
    seconds below 60, and [minSecToMs] of them is the interval rounded
    down to a whole second: what the settings page shows and posts back
    loses only the milliseconds. *)
Theorem minSecToMs_msToMinSec (ms : Z) :
  0 <= ms < 3600000 ->
  let '(m, s) := msToMinSec ms in
  0 <= m <= 59 /\ 0 <= s <= 59 /\ minSecToMs m s = ms - ms mod 1000.
Proof.
  intros Hms. unfold msToMinSec, minSecToMs, u8, u32.
  assert (Hq : 0 <= ms / 60000 < 60).
  { split; [apply Z.div_pos; lia|apply Z.div_lt_upper_bound; lia]. }
  assert (Hr : 0 <= ms mod 60000 < 60000) by (apply Z.mod_pos_bound; lia).
  assert (Hs : 0 <= ms mod 60000 / 1000 < 60).
  { split; [apply Z.div_pos; lia|apply Z.div_lt_upper_bound; lia]. }
  rewrite (Z.mod_small (ms / 60000)), (Z.mod_small (ms mod 60000 / 1000)) by lia.
  rewrite (Z.mod_small (_ * 1000)) by lia.
  split; [lia|]. split; [lia|].
  Z.div_mod_to_equations. lia.
Qed.

Lemma minSecToMs_msToMinSec_witness :
  let '(m, s) := msToMinSec 90500 in
  0 <= m <= 59 /\ 0 <= s <= 59 /\ minSecToMs m s = 90500 - 90500 mod 1000.
Proof. apply minSecToMs_msToMinSec. lia. Defined.

(** ** The loop without requests *)

Lemma run_app (l1 l2 : list Event) (d : Device) :
  run (l1 ++ l2) d = run l2 (run l1 d).
Proof. unfold run. apply fold_left_app. Qed.

Lemma loop_without_request (env : Env) (d : Device) :
  request env = None -> restarted d = false ->
  loop env d = checkButton env (espNowRetry env (updateSensorReadings env d)).
Proof.
  intros Hr Hd. unfold loop, handleClient. rewrite Hr, Hd. reflexivity.
Qed.

Lemma same_button_state_refl (d : Device) : same_button_state d d.
Proof. repeat split. Qed.

Lemma same_button_state_trans (d1 d2 d3 : Device) :
  same_button_state d1 d2 -> same_button_state d2 d3 -> same_button_state d1 d3.
Proof.
  unfold same_button_state. intros (A1 & B1 & C1 & D1 & E1) (A2 & B2 & C2 & D2 & E2).
  repeat split; congruence.
Qed.

Lemma same_button_state_println (l : Line) (d : Device) :
  line_eqb LineLongPress l = false -> same_button_state d (println l d).
Proof.
  intros Hl. unfold same_button_state, count_line. destruct_device d.
  cbn [println serial t0 pressed flash restarted].
  rewrite count_lines_app. cbn [count_lines]. rewrite Hl. repeat split. lia.
Qed.

Lemma same_button_state_send (env : Env) (d : Device) :
  same_button_state d (sendEspNowData env d).
Proof.
  unfold sendEspNowData. destruct (espNowInitialized d) eqn:Hi; simpl.
  - destruct_device d. unfold same_button_state, count_line.
    destruct (negb (u8 (esp_now_send env) =? 0)); repeat split.
  - apply same_button_state_println. reflexivity.
Qed.

Lemma same_button_state_sample (env : Env) (d : Device) :
  same_button_state d (updateSensorReadings env d).
Proof.
  unfold updateSensorReadings.
  destruct (_ <=? _); [|apply same_button_state_refl].
  match goal with |- context [if ?c then _ else _] => destruct c end.
  - eapply same_button_state_trans; [|apply same_button_state_send].
    eapply same_button_state_trans; [|apply same_button_state_println; reflexivity].
    destruct_device d. repeat split.
  - destruct_device d. repeat split.
Qed.

Lemma same_button_state_retry (env : Env) (d : Device) :
  same_button_state d (espNowRetry env d).
Proof.
  unfold espNowRetry. destruct (_ && _ && _); [|apply same_button_state_refl].
  eapply same_button_state_trans;
    [apply (same_button_state_println LineRetry); reflexivity|].
  eapply same_button_state_trans; [apply (same_button_state_send env)|].
  generalize (sendEspNowData env (println LineRetry d)). intros x.
  destruct_device x. repeat split.
Qed.

(** Sampling and retrying own nothing of the long-press detector. *)
Lemma same_button_state_sample_retry (env : Env) (d : Device) :
  same_button_state d (espNowRetry env (updateSensorReadings env d)).
Proof.
  eapply same_button_state_trans;
    [apply same_button_state_sample|apply same_button_state_retry].
Qed.








(** ** Long press, from a start other than zero *)

Lemma hold_continues (start : Z) (ev : Event) (d : Device) :
  start <> 0 -> held_below start ev ->
  t0 d = start -> restarted d = false ->
  same_button_state d (step d ev).
Proof.
  intros Hnz Hev Ht Hr. unfold step. rewrite Hr.
  destruct ev as [env|status].
  - destruct Hev as (Hreq & Hlow & Hlt).
    rewrite (loop_without_request env d Hreq Hr).
    destruct (same_button_state_sample_retry env d) as (A & B & C & D & E).
    set (d2 := espNowRetry env (updateSensorReadings env d)) in *.
    rewrite checkButton_waits; [repeat split; assumption|exact Hlow| |]; rewrite A, Ht;
      assumption.
  - destruct_device d. repeat split.
Qed.

Lemma hold_run (start : Z) (evs : list Event) (d : Device) :
  start <> 0 -> Forall (held_below start) evs ->
  t0 d = start -> restarted d = false ->
  same_button_state d (run evs d).
Proof.
  intros Hnz. revert d. induction evs as [|ev evs IH]; intros d Hevs Ht Hr.
  - repeat split.
  - apply Forall_cons in Hevs as [Hev Hevs].
    change (run (ev :: evs) d) with (run evs (step d ev)).
    destruct (hold_continues start ev d Hnz Hev Ht Hr) as (A & B & C & D & E).
    destruct (IH (step d ev) Hevs) as (A' & B' & C' & D' & E'); try congruence.
    repeat split; congruence.
Qed.

(** The first tick that sees the button takes the time. *)
Lemma hold_starts (env : Env) (d : Device) :
  request env = None -> button_low env = true ->
  t0 d = 0 -> restarted d = false ->
  let d1 := step d (Tick env) in
  t0 d1 = millis env /\ pressed d1 = true /\ flash d1 = flash d /\
  restarted d1 = false /\ count_line LineLongPress d1 = count_line LineLongPress d.
Proof.
  intros Hreq Hlow Ht Hr d1. subst d1. unfold step. rewrite Hr.
  rewrite (loop_without_request env d Hreq Hr).
  destruct (same_button_state_sample_retry env d) as (A & B & C & D & E).
  set (d2 := espNowRetry env (updateSensorReadings env d)) in *.
  rewrite checkButton_starts by congruence.
  unfold count_line in *.
  destruct_device d2. cbn [set_button t0 pressed flash restarted serial] in *.
  repeat split; congruence.
Qed.

(** X14. A press first seen at a clock value other than zero and seen at
    every tick since fires the factory reset at the first tick where the
    elapsed time, taken modulo 2^32, reaches 4000 ms: the store is
    erased, the restart is requested and the banner is printed once,
    whatever samples, retries and completion signals come in between. *)
Theorem long_press_fires (d : Device) (e1 en : Env) (mid : list Event) :
  restarted d = false -> t0 d = 0 ->
  request e1 = None -> button_low e1 = true -> millis e1 <> 0 ->
  Forall (held_below (millis e1)) mid ->
  request en = None -> button_low en = true ->
  BTN_HOLD_MS <= u32 (millis en - millis e1) ->
  let d' := run (Tick e1 :: mid ++ [Tick en]) d in
  restarted d' = true /\
  flash d' = clearConfig (spi_flash_ok en) (flash d) /\
  count_line LineLongPress d' = S (count_line LineLongPress d) /\
  restarted (run (Tick e1 :: mid) d) = false.
Proof.
  intros Hr Ht Hq1 Hl1 Hnz Hmid Hqn Hln Hge d'. subst d'.
  change (Tick e1 :: mid ++ [Tick en]) with ([Tick e1] ++ mid ++ [Tick en]).
  change (Tick e1 :: mid) with ([Tick e1] ++ mid).
  rewrite !run_app.
  change (run [Tick e1] d) with (step d (Tick e1)).
  destruct (hold_starts e1 d Hq1 Hl1 Ht Hr) as (A1 & B1 & C1 & D1 & E1).
  set (d1 := step d (Tick e1)) in *.
  destruct (hold_run (millis e1) mid d1 Hnz Hmid A1 D1) as (A2 & B2 & C2 & D2 & E2).
  set (d2 := run mid d1) in *.
  assert (Hr2 : restarted d2 = false) by congruence.
  change (run [Tick en] d2) with (step d2 (Tick en)).
  unfold step. rewrite Hr2.
  rewrite (loop_without_request en d2 Hqn Hr2).
  destruct (same_button_state_sample_retry en d2) as (A3 & B3 & C3 & D3 & E3).
  set (d3 := espNowRetry en (updateSensorReadings en d2)) in *.
  rewrite checkButton_fires; [|exact Hln| |]; try (rewrite A3, A2, A1; assumption).
  unfold count_line in *.
  destruct_device d3.
  cbn [ESP_restart set_flash println t0 pressed flash restarted serial] in *.
  rewrite count_lines_app. cbn [count_lines line_eqb].
  repeat split; try congruence. lia.
Qed.

Lemma long_press_fires_witness :
  let d' := run (Tick (holding 70000) :: [Tick (holding 72000); SendDone 0]
                 ++ [Tick (holding 74000)]) tank_device in
  restarted d' = true /\
  flash d' = clearConfig (spi_flash_ok (holding 74000)) (flash tank_device) /\
  count_line LineLongPress d' = S (count_line LineLongPress tank_device) /\
  restarted (run (Tick (holding 70000) :: [Tick (holding 72000); SendDone 0])
                 tank_device) = false.
Proof.
  apply (long_press_fires tank_device (holding 70000) (holding 74000)
           [Tick (holding 72000); SendDone 0]).
  - reflexivity.
  - reflexivity.
  - reflexivity.
  - reflexivity.
  - discriminate.
  - constructor; [|constructor; [exact I|constructor]].
    split; [reflexivity|]. split; [reflexivity|]. vm_compute. reflexivity.
  - reflexivity.
  - reflexivity.
  - vm_compute. discriminate.
Defined.

(** X15. A press first seen at a clock value other than zero and
    released before the elapsed time reaches 4000 ms fires nothing: at
    the tick that sees the line released the timer is cleared, the store
    and the restart flag are as before, and the detector is idle for
    the next press. *)
Theorem short_press_is_dropped (d : Device) (e1 er : Env) (mid : list Event) :
  restarted d = false -> t0 d = 0 ->
  request e1 = None -> button_low e1 = true -> 0 < millis e1 ->
  Forall (held_below (millis e1)) mid ->
  request er = None -> button_low er = false ->
  let d' := run (Tick e1 :: mid ++ [Tick er]) d in
  t0 d' = 0 /\ pressed d' = false /\
  restarted d' = false /\ flash d' = flash d /\
  count_line LineLongPress d' = count_line LineLongPress d.
Proof.
  intros Hr Ht Hq1 Hl1 Hpos Hmid Hqr Hlr d'. subst d'.
  change (Tick e1 :: mid ++ [Tick er]) with ([Tick e1] ++ mid ++ [Tick er]).
  rewrite !run_app.
  change (run [Tick e1] d) with (step d (Tick e1)).
  destruct (hold_starts e1 d Hq1 Hl1 Ht Hr) as (A1 & B1 & C1 & D1 & E1).
  set (d1 := step d (Tick e1)) in *.
  destruct (hold_run (millis e1) mid d1 ltac:(lia) Hmid A1 D1) as (A2 & B2 & C2 & D2 & E2).
  set (d2 := run mid d1) in *.
  assert (Hr2 : restarted d2 = false) by congruence.
  change (run [Tick er] d2) with (step d2 (Tick er)).
  unfold step. rewrite Hr2.
  rewrite (loop_without_request er d2 Hqr Hr2).
  destruct (same_button_state_sample_retry er d2) as (A3 & B3 & C3 & D3 & E3).
  set (d3 := espNowRetry er (updateSensorReadings er d2)) in *.
  unfold checkButton. rewrite Hlr.
  assert (Hp3 : pressed d3 = true) by congruence.
  assert (Ht3 : t0 d3 = millis e1) by congruence.
  rewrite Hp3, Ht3. cbn [andb].
  destruct (Z.ltb_spec 0 (millis e1)); [|lia].
  unfold count_line in *.
  destruct_device d3. cbn [set_button t0 pressed flash restarted serial] in *.
  repeat split; congruence.
Qed.

Lemma short_press_is_dropped_witness :
  let d' := run (Tick (holding 70000) :: [Tick (holding 72000)]
                 ++ [Tick (quiet 73000)]) tank_device in
  t0 d' = 0 /\ pressed d' = false /\
  restarted d' = false /\ flash d' = flash tank_device /\
  count_line LineLongPress d' = count_line LineLongPress tank_device.
Proof.
  apply (short_press_is_dropped tank_device (holding 70000) (quiet 73000)
           [Tick (holding 72000)]).
  - reflexivity.
  - reflexivity.
  - reflexivity.
  - reflexivity.
  - vm_compute. reflexivity.
  - constructor; [|constructor].
    split; [reflexivity|]. split; [reflexivity|]. vm_compute. reflexivity.
  - reflexivity.
  - reflexivity.
Defined.

(** ** The loop left alone *)

Lemma checkButton_not_held (env : Env) (d : Device) :
  button_low env = false ->
  flash (checkButton env d) = flash d /\
  restarted (checkButton env d) = restarted d /\
  count_line LineLongPress (checkButton env d) = count_line LineLongPress d.
Proof.
  intros Hb. unfold checkButton. rewrite Hb.
  destruct (pressed d && _); [destruct_device d|]; repeat split.
Qed.

(** X16. Without a request and with the button released, nothing writes
    the store or restarts the node: over any such run of ticks and
    completion signals, with whatever samples, sends and retries they
    cause, the store and the restart flag stay as they were and the
    long-press banner is not printed. *)
Theorem untouched_run_keeps_store (evs : list Event) (d : Device) :
  Forall untouched evs ->
  flash (run evs d) = flash d /\
  restarted (run evs d) = restarted d /\
  count_line LineLongPress (run evs d) = count_line LineLongPress d.
Proof.
  revert d. induction evs as [|ev evs IH]; intros d Hevs; [repeat split|].
  apply Forall_cons in Hevs as [Hev Hevs].
  change (run (ev :: evs) d) with (run evs (step d ev)).
  destruct (IH (step d ev) Hevs) as (A & B & C).
  assert (Hs : flash (step d ev) = flash d /\ restarted (step d ev) = restarted d /\
               count_line LineLongPress (step d ev) = count_line LineLongPress d).
  { unfold step. destruct (restarted d) eqn:Hr; [repeat split; assumption|].
    destruct ev as [env|status]; [|destruct_device d; repeat split; assumption].
    destruct Hev as [Hreq Hlow].
    rewrite (loop_without_request env d Hreq Hr).
    destruct (same_button_state_sample_retry env d) as (_ & _ & C1 & D1 & E1).
    destruct (checkButton_not_held env
                (espNowRetry env (updateSensorReadings env d)) Hlow) as (C2 & D2 & E2).
    repeat split; congruence. }
  destruct Hs as (A' & B' & C'). repeat split; congruence.
Qed.

Lemma untouched_run_keeps_store_witness :
  let evs := [Tick (refusing 61300); SendDone 1; Tick (quiet 61310)] in
  flash (run evs tank_device) = flash tank_device /\
  restarted (run evs tank_device) = restarted tank_device /\
  count_line LineLongPress (run evs tank_device) = count_line LineLongPress tank_device.
Proof.
  apply (untouched_run_keeps_store
           [Tick (refusing 61300); SendDone 1; Tick (quiet 61310)] tank_device).
  repeat constructor.
Defined.

(** ** Cadence of the scheduled samples *)




(** ** What an accepted MAC text stores *)

Lemma sscanf_mac_fields (k i : nat) (s : string) (out : list Z) :
  sscanf_mac k i s out =
  (Z.of_nat (length (scan_fields k s)), overwrite i (scan_fields k s) out).
Proof.
  revert i s out. induction k as [|k IH]; intros i s out; [reflexivity|].
  cbn [sscanf_mac scan_fields].
  destruct (scan_hhx s) as [[v rest]|]; [|reflexivity].
  destruct k as [|k']; [reflexivity|].
  destruct rest as [|c r]; [reflexivity|].
  destruct (code c =? 58); [|reflexivity].
  rewrite IH. cbn [length overwrite]. f_equal. lia.
Qed.

Lemma overwrite_all (vs out : list Z) (pre : list Z) :
  length vs = length out ->
  overwrite (length pre) vs (pre ++ out) = pre ++ vs.
Proof.
  revert out pre. induction vs as [|v vs IH]; intros out pre Hlen.
  - destruct out; [reflexivity|discriminate].
  - destruct out as [|o out]; [discriminate|]. cbn [overwrite].
    replace (<[length pre := v]> (pre ++ o :: out)) with ((pre ++ [v]) ++ out).
    + replace (S (length pre)) with (length (pre ++ [v]))
        by (rewrite length_app; simpl; lia).
      rewrite IH by (simpl in Hlen; lia).
      rewrite <- app_assoc. reflexivity.
    + rewrite insert_app_r_alt by lia.
      rewrite Nat.sub_diag. cbn. rewrite <- app_assoc. reflexivity.
Qed.

(** X18. A MAC text is accepted only when six groups were read, and then
    every byte of the array is replaced: on success the result does not
    depend on what the array held before. *)
Theorem parseMac_success_replaces_all (s : string) (out1 out2 : list Z) :
  length out1 = 6%nat -> length out2 = 6%nat ->
  fst (parseMac s out1) = true ->
  parseMac s out2 = (true, snd (parseMac s out1)) /\
  length (snd (parseMac s out1)) = 6%nat.
Proof.
  intros H1 H2. unfold parseMac. rewrite !sscanf_mac_fields. cbn [fst snd].
  intros Hsix. apply Z.eqb_eq in Hsix.
  assert (Hlen : length (scan_fields 6 s) = 6%nat) by lia.
  rewrite Hlen. cbn [Z.of_nat Z.eqb Pos.of_succ_nat Pos.succ Pos.eqb].
  pose proof (overwrite_all (scan_fields 6 s) out1 [] ltac:(congruence)) as E1.
  pose proof (overwrite_all (scan_fields 6 s) out2 [] ltac:(congruence)) as E2.
  cbn [length app] in E1, E2. rewrite E1, E2. split; [reflexivity|exact Hlen].
Qed.

Lemma parseMac_success_replaces_all_witness :
  parseMac "0a:1B:2c:3D:4e:5F" [9; 9; 9; 9; 9; 9] =
    (true, snd (parseMac "0a:1B:2c:3D:4e:5F" [1; 2; 3; 4; 5; 6])) /\
  length (snd (parseMac "0a:1B:2c:3D:4e:5F" [1; 2; 3; 4; 5; 6])) = 6%nat.
Proof.
  apply parseMac_success_replaces_all; reflexivity.
Defined.

(** ** From a saved configuration to the readings after the restart *)

(** X19. After a successful save the node that restarts from the store
    shows a fill percentage between 0 and 100 from its first reading on
    and divides by a finite height above zero, over every run that
    follows, whatever the echo times. *)
Theorem percent_after_saved_restart
        (env env' : Env) (req : Args) (d : Device) (evs : list Event) :
  config_wf (config d) -> length (flash d) = 64%nat ->
  fst (handleSave env req d) = SAVED ->
  level_ok (run evs (setup env' (flash (snd (handleSave env req d))))).
Proof.
  intros Hwf Hfl Hsaved.
  assert (H0 : level_ok (setup env' (flash (snd (handleSave env req d))))).
  { unfold level_ok, setup.
    rewrite (loadConfig_after_handleSave env req d Hwf Hfl Hsaved).
    cbn [snd config currentWaterLevel].
    destruct (handleSave_saved env req d Hsaved) as (_ & _ & Hb & Hh & _).
    destruct (barrel_float _ Hb) as [_ Hp]. rewrite <- Hh in Hp.
    split; [exact Hp|].
    apply calculateWaterLevel_percent; [apply measureDistanceCM_not_nan|exact Hp]. }
  revert H0. generalize (setup env' (flash (snd (handleSave env req d)))).
  induction evs as [|ev evs IH]; intros d0 H0; [exact H0|].
  change (run (ev :: evs) d0) with (run evs (step d0 ev)).
  apply IH, level_ok_step, H0.
Qed.

Lemma percent_after_saved_restart_witness :
  level_ok (run [Tick (quiet 70000); Tick (mkEnv 140000 0 0 0 0 false true None)]
              (setup (quiet 1300)
                 (flash (snd (handleSave (quiet 5000) zero_interval_request tank_device))))).
Proof.
  apply percent_after_saved_restart.
  - apply config_ok_wf. reflexivity.
  - reflexivity.
  - reflexivity.
Defined.
